(** * GCVideo DVI firmware: the settings store of [Firmware/settings.c]

    A shallow embedding of the settings record codec and of the rotational
    record log kept in one flash sector, followed by the properties of the
    specification stated over that embedding.

    Integers of the C code are [Z] with the wrap-around of their C type
    written out; the record buffer [storedsettings_t set] is the list of its
    bytes, so that the byte-wise checksum loops and the member accesses read
    the same memory, as they do in C. *)

From Stdlib Require Import ZArith List Bool Lia.
From Stdlib Require String Ascii DecimalString.
Import ListNotations.
Open Scope Z_scope.

(** ** Constants of headers that are not part of [settings.c] *)

(** [portdefs.h], [settings.h] and the target's byte order.  The code is
    compiled for one fixed target; every result below holds for each choice
    of these values. *)
Record portdefs := mkPortdefs {
  big_endian : bool;
  SETTINGS_OFFSET : Z;
  VIDEOIF_FLAG_PROGRESSIVE : Z;
  VIDEOIF_FLAG_PAL : Z;
  VIDEOIF_FLAG_31KHZ : Z;
  VIDEOIF_SET_CABLEDETECT : Z;
  VIDEOIF_SET_LD_ENABLE : Z;
  VIDEOIF_SET_SL_ALTERNATE : Z;
  VIDEOIF_IMGCTL_CONTRAST_SHIFT : Z;
  VIDEOIF_IMGCTL_BRIGHTNESS_SHIFT : Z;
  VIDEOIF_IMGCTL_SATURATION_SHIFT : Z
}.

Definition SETTINGS_VERSION : Z := 5.
Definition SETTINGS_SIZE_V4 : Z := 60.
Definition SETTINGS_SIZE_V5 : Z := 63.

Definition SET_FLAG_RESBOX : Z := Z.shiftl 1 0.
Definition SET_FLAG_MUTE : Z := Z.shiftl 1 1.

(** [VIDMODE_COUNT] is the length of the initialisers of [video_out_lines]
    and [mode_names]. *)
Definition VIDMODE_COUNT : nat := 6.

(** Modelled from the spec: [NUM_IRCODES] of [irrx.h] is missing.  The V4
    record is 60 bytes: 4 header bytes, six video words, two words and the
    IR code table, which leaves six 4-byte codes. *)
Definition NUM_IRCODES : nat := 6.

Inductive video_mode_t :=
| VIDMODE_240p | VIDMODE_288p | VIDMODE_480i
| VIDMODE_576i | VIDMODE_480p | VIDMODE_576p.

Definition mode_index (v : video_mode_t) : nat :=
  match v with
  | VIDMODE_240p => 0 | VIDMODE_288p => 1 | VIDMODE_480i => 2
  | VIDMODE_576i => 3 | VIDMODE_480p => 4 | VIDMODE_576p => 5
  end%nat.

(** ** Fixed-width integers *)

Definition u8 (z : Z) : Z := z mod 256.
Definition u16 (z : Z) : Z := z mod 65536.
Definition u32 (z : Z) : Z := z mod 4294967296.

(** Value of an [int8_t] object whose byte is [b]. *)
Definition s8 (b : Z) : Z := if b <? 128 then b else b - 256.

(** ** The record buffer *)

Definition buffer := list Z.

Fixpoint upd {A : Type} (l : list A) (n : nat) (x : A) : list A :=
  match l, n with
  | [], _ => []
  | _ :: t, O => x :: t
  | h :: t, S n' => h :: upd t n' x
  end.

Definition peek (byteset : buffer) (off : nat) : Z := nth off byteset 0.
Definition poke (byteset : buffer) (off : nat) (b : Z) : buffer :=
  upd byteset off (u8 b).

(** Layout of [storedsettings_t]: four bytes, then 4-byte aligned words,
    then three bytes and one byte of tail padding. *)
Definition OFF_checksum : nat := 0.
Definition OFF_version : nat := 1.
Definition OFF_flags : nat := 2.
Definition OFF_volume : nat := 3.
Definition OFF_video_settings : nat := 4.
Definition OFF_osdbg_settings : nat := 28.
Definition OFF_mode_switch_delay : nat := 32.
Definition OFF_ir_codes : nat := 36.
Definition OFF_brightness : nat := 60.
Definition OFF_contrast : nat := 61.
Definition OFF_saturation : nat := 62.
Definition sizeof_storedsettings_t : nat := 64.

Definition checksum (set : buffer) : Z := peek set OFF_checksum.
Definition version (set : buffer) : Z := peek set OFF_version.
Definition flags (set : buffer) : Z := peek set OFF_flags.
Definition volume (set : buffer) : Z := peek set OFF_volume.
Definition brightness (set : buffer) : Z := s8 (peek set OFF_brightness).
Definition contrast (set : buffer) : Z := s8 (peek set OFF_contrast).
Definition saturation (set : buffer) : Z := s8 (peek set OFF_saturation).

(** [for (j = start; j < start + count; j++) sum += byteset[j];] with a
    [uint8_t sum]. *)
Fixpoint checksum_loop (byteset : buffer) (j count : nat) (sum : Z) : Z :=
  match count with
  | O => sum
  | S count' => checksum_loop byteset (S j) count' (u8 (sum + peek byteset j))
  end.

(** The plain sum of the bytes the loop visits. *)
Fixpoint bytes_total (byteset : buffer) (j count : nat) : Z :=
  match count with
  | O => 0
  | S count' => peek byteset j + bytes_total byteset (S j) count'
  end.

Definition is_byte (b : Z) : Prop := 0 <= b < 256.

Definition bytes_ok (n : nat) (set : buffer) : Prop :=
  length set = n /\ Forall is_byte set.

(** The buffer with bit [k] of the byte at [p] inverted. *)
Definition flip_bit (set : buffer) (p : nat) (k : Z) : buffer :=
  upd set p (Z.lxor (peek set p) (2 ^ k)).

(** ** Live settings and the machine state *)

Record settings := mkSettings {
  video_settings : list Z;
  osdbg_settings : Z;
  mode_switch_delay : Z;
  resbox_enabled : bool;
  audio_volume : Z;
  audio_mute : bool;
  ir_codes : list Z;
  picture_brightness : Z;
  picture_contrast : Z;
  picture_saturation : Z
}.

(** The mutating commands sent to the flash chip, oldest first. *)
Inductive spi_op :=
| SpiErase (addr : Z)
| SpiWrite (addr : Z) (len : nat).

Record machine := mkMachine {
  live : settings;
  video_settings_global : Z;
  current_videomode : video_mode_t;
  current_setid : Z;
  VIDEOIF_flags : Z;
  VIDEOIF_settings : Z;
  VIDEOIF_osd_bg : Z;
  VIDEOIF_audio_volume : Z;
  VIDEOIF_image_controls : Z;
  flash : Z -> Z;
  spi_log : list spi_op
}.

Definition set_live (m : machine) (s : settings) : machine :=
  mkMachine s (video_settings_global m) (current_videomode m)
    (current_setid m) (VIDEOIF_flags m) (VIDEOIF_settings m)
    (VIDEOIF_osd_bg m) (VIDEOIF_audio_volume m) (VIDEOIF_image_controls m)
    (flash m) (spi_log m).

Definition set_current_setid (m : machine) (i : Z) : machine :=
  mkMachine (live m) (video_settings_global m) (current_videomode m)
    i (VIDEOIF_flags m) (VIDEOIF_settings m)
    (VIDEOIF_osd_bg m) (VIDEOIF_audio_volume m) (VIDEOIF_image_controls m)
    (flash m) (spi_log m).

Definition set_image_controls (m : machine) (w : Z) : machine :=
  mkMachine (live m) (video_settings_global m) (current_videomode m)
    (current_setid m) (VIDEOIF_flags m) (VIDEOIF_settings m)
    (VIDEOIF_osd_bg m) (VIDEOIF_audio_volume m) w
    (flash m) (spi_log m).

Definition set_flash (m : machine) (f : Z -> Z) (ops : list spi_op) : machine :=
  mkMachine (live m) (video_settings_global m) (current_videomode m)
    (current_setid m) (VIDEOIF_flags m) (VIDEOIF_settings m)
    (VIDEOIF_osd_bg m) (VIDEOIF_audio_volume m) (VIDEOIF_image_controls m)
    f (spi_log m ++ ops).

(** Values the C types of the live variables can hold. *)
Definition is_u32 (w : Z) : Prop := 0 <= w < 4294967296.
Definition is_s8 (w : Z) : Prop := -128 <= w < 128.

Definition settings_ok (s : settings) : Prop :=
  length (video_settings s) = VIDMODE_COUNT /\
  Forall is_u32 (video_settings s) /\
  is_u32 (osdbg_settings s) /\
  is_u32 (mode_switch_delay s) /\
  is_byte (audio_volume s) /\
  length (ir_codes s) = NUM_IRCODES /\
  Forall is_u32 (ir_codes s) /\
  is_s8 (picture_brightness s) /\
  is_s8 (picture_contrast s) /\
  is_s8 (picture_saturation s).

Definition is_erase (op : spi_op) : bool :=
  match op with SpiErase _ => true | SpiWrite _ _ => false end.

(** Number of sector erases performed so far. *)
Definition erase_count (m : machine) : nat :=
  length (filter is_erase (spi_log m)).

(** ** The flash chip *)

(** Modelled from the spec: [spiflash_read_block] of [spiflash.c] is
    missing; it returns exactly [len] bytes starting at [addr]. *)
Definition spiflash_read_block (f : Z -> Z) (addr : Z) (len : nat) : buffer :=
  map (fun k => f (addr + Z.of_nat k)) (seq 0 len).

(** Modelled from the spec: [spiflash_erase_sector] of [spiflash.c] is
    missing; it resets every byte of the sector, 256 slots of 256 bytes
    from its base address, to the fill value. *)
Definition spiflash_erase_sector (f : Z -> Z) (addr : Z) : Z -> Z :=
  fun a => if (addr <=? a) && (a <? addr + 65536) then 255 else f a.

(** Modelled from the spec: [spiflash_write_page] of [spiflash.c] is
    missing; programming can only clear bits, so each target byte becomes
    the bitwise and of its old value and the data byte. *)
Definition spiflash_write_page (f : Z -> Z) (addr : Z) (data : buffer)
  : Z -> Z :=
  fun a =>
    if (addr <=? a) && (a <? addr + Z.of_nat (length data))
    then Z.land (f a) (nth (Z.to_nat (a - addr)) data 255)
    else f a.

Section Firmware.

Variable hw : portdefs.

(** Indeterminate initial contents of the local [storedsettings_t set] of
    [settings_load]. *)
Variable set0 : buffer.

(** *** 32-bit members *)

Definition word_bytes (w : Z) : list Z :=
  let b0 := u8 w in
  let b1 := u8 (w / 256) in
  let b2 := u8 (w / 65536) in
  let b3 := u8 (w / 16777216) in
  if big_endian hw then [b3; b2; b1; b0] else [b0; b1; b2; b3].

Definition bytes_word (b : list Z) : Z :=
  let b := if big_endian hw then rev b else b in
  nth 0 b 0 + 256 * nth 1 b 0 + 65536 * nth 2 b 0 + 16777216 * nth 3 b 0.

Definition peek32 (set : buffer) (off : nat) : Z :=
  bytes_word [peek set off; peek set (off + 1);
              peek set (off + 2); peek set (off + 3)].

(** Byte [n] of the word [w] as it lies in memory. *)
Definition word_byte (n : nat) (w : Z) : Z := nth n (word_bytes w) 0.

Definition poke32 (set : buffer) (off : nat) (w : Z) : buffer :=
  poke (poke (poke (poke set off (word_byte 0 w)) (off + 1) (word_byte 1 w))
          (off + 2) (word_byte 2 w)) (off + 3) (word_byte 3 w).

(** [for (i = 0; i < n; i++) set.member[i] = src[i];] and the [memcpy] of
    a whole array of words into the record. *)
Definition poke_words (set : buffer) (off n : nat) (src : list Z) : buffer :=
  fold_left (fun set i => poke32 set (off + 4 * i) (nth i src 0)) (seq 0 n) set.

(** The whole array [dst] of [n] words read back from the record. *)
Definition peek_words (set : buffer) (off n : nat) : list Z :=
  map (fun i => peek32 set (off + 4 * i)%nat) (seq 0 n).

(** *** [update_imagecontrols] *)

Definition update_imagecontrols (m : machine) : machine :=
  let s := live m in
  let contrast := u8 (picture_contrast s + 128) in
  let saturation := u16 (Z.quot ((picture_saturation s + 128) * contrast) 128) in
  let imgctl :=
    u32 (Z.lor
           (Z.lor (Z.shiftl contrast (VIDEOIF_IMGCTL_CONTRAST_SHIFT hw))
                  (Z.shiftl (u8 (picture_brightness s))
                            (VIDEOIF_IMGCTL_BRIGHTNESS_SHIFT hw)))
           (Z.shiftl saturation (VIDEOIF_IMGCTL_SATURATION_SHIFT hw))) in
  set_image_controls m imgctl.

(** *** [detect_inputmode] *)

Definition detect_inputmode (m : machine) : video_mode_t :=
  let P := VIDEOIF_FLAG_PROGRESSIVE hw in
  let PAL := VIDEOIF_FLAG_PAL hw in
  let K31 := VIDEOIF_FLAG_31KHZ hw in
  let cur_flags := Z.land (VIDEOIF_flags m) (Z.lor (Z.lor P PAL) K31) in
  if (cur_flags =? Z.lor PAL K31) || (cur_flags =? Z.lor (Z.lor PAL K31) P)
  then VIDMODE_576p
  else if cur_flags =? Z.lor PAL P then VIDMODE_288p
  else if cur_flags =? PAL then VIDMODE_576i
  else if (cur_flags =? K31) || (cur_flags =? Z.lor K31 P) then VIDMODE_480p
  else if cur_flags =? P then VIDMODE_240p
  else VIDMODE_480i.

(** *** [settings_load] *)

(** The [switch] on the version byte: the declared size of the record,
    0 when no case applies. *)
Definition record_size (v : Z) : Z :=
  if v =? 4 then SETTINGS_SIZE_V4
  else if v =? 5 then SETTINGS_SIZE_V5
  else 0.

(** Lines 161-181: the version test, the size switch and the checksum
    comparison; [true] when the loop leaves with [valid = true]. *)
Definition record_valid (set : buffer) : bool :=
  if (version set =? SETTINGS_VERSION) || (version set =? 4) then
    let size := record_size (version set) in
    let sum := checksum_loop set 1 (Z.to_nat size - 1) 0 in
    negb (size =? 0) && (sum =? checksum set)
  else false.

(** How one iteration of the scan loop ends. *)
Inductive loop_exit := BreakValid | BreakInvalid | NextSlot.

Definition scan_slot (set : buffer) : loop_exit :=
  if record_valid set then BreakValid
  else if negb (version set =? 255) || negb (checksum set =? 255)
       then BreakInvalid
       else NextSlot.

Definition read_slot (f : Z -> Z) (i : Z) : buffer :=
  spiflash_read_block f (SETTINGS_OFFSET hw + 256 * i) sizeof_storedsettings_t.

(** The [for] loop over [i], with [n] iterations left; the result is
    [valid], [i] and [set] after the loop. *)
Fixpoint scan (f : Z -> Z) (n : nat) (i : Z) (set : buffer)
  : bool * Z * buffer :=
  match n with
  | O => (false, i, set)
  | S n' =>
      let set := read_slot f i in
      match scan_slot set with
      | BreakValid => (true, i, set)
      | BreakInvalid => (false, i, set)
      | NextSlot => scan f n' (i + 1) set
      end
  end.

(** Lines 193-218: copy the record to the main variables. *)
Definition copy_to_main_vars (set : buffer) (m : machine) : machine :=
  let s := live m in
  let v5 := 5 <=? version set in
  let s' :=
    {| video_settings := peek_words set OFF_video_settings VIDMODE_COUNT;
       osdbg_settings := peek32 set OFF_osdbg_settings;
       mode_switch_delay := peek32 set OFF_mode_switch_delay;
       resbox_enabled := negb (Z.land (flags set) SET_FLAG_RESBOX =? 0);
       audio_volume := Z.land (volume set) 255;
       audio_mute := negb (Z.land (flags set) SET_FLAG_MUTE =? 0);
       ir_codes := peek_words set OFF_ir_codes NUM_IRCODES;
       picture_brightness := if v5 then brightness set else picture_brightness s;
       picture_contrast := if v5 then contrast set else picture_contrast s;
       picture_saturation := if v5 then saturation set else picture_saturation s
    |} in
  let m' := set_live m s' in
  if v5 then update_imagecontrols m' else m'.

Definition settings_load (m : machine) : machine :=
  let '(valid, i, set) := scan (flash m) 256 0 set0 in
  let m := set_current_setid m (u16 i) in
  if valid then copy_to_main_vars set m else m.

(** *** [settings_save] *)

(** Lines 227-248: create the settings record. *)
Definition create_record (s : settings) : buffer :=
  let set := repeat 0 sizeof_storedsettings_t in
  let set := poke set OFF_version SETTINGS_VERSION in
  let set := poke_words set OFF_video_settings VIDMODE_COUNT (video_settings s) in
  let set := poke32 set OFF_osdbg_settings (osdbg_settings s) in
  let set := poke32 set OFF_mode_switch_delay (mode_switch_delay s) in
  let set := if resbox_enabled s
             then poke set OFF_flags (Z.lor (flags set) SET_FLAG_RESBOX)
             else set in
  let set := poke set OFF_volume (audio_volume s) in
  let set := if audio_mute s
             then poke set OFF_flags (Z.lor (flags set) SET_FLAG_MUTE)
             else set in
  let set := poke_words set OFF_ir_codes NUM_IRCODES (ir_codes s) in
  let set := poke set OFF_brightness (picture_brightness s) in
  let set := poke set OFF_contrast (picture_contrast s) in
  poke set OFF_saturation (picture_saturation s).

(** Lines 250-254: calculate the checksum over [size] bytes of the record
    and store it. *)
Definition calculate_checksum (set : buffer) (size : nat) : buffer :=
  let sum := checksum_loop set 1 (size - 1) 0 in
  poke set OFF_checksum sum.

Definition make_record (s : settings) : buffer :=
  calculate_checksum (create_record s) sizeof_storedsettings_t.

Definition settings_save (m : machine) : machine :=
  let set := make_record (live m) in
  let m :=
    if current_setid m =? 0
    then set_current_setid
           (set_flash m (spiflash_erase_sector (flash m) (SETTINGS_OFFSET hw))
                      [SpiErase (SETTINGS_OFFSET hw)])
           256
    else m in
  let m := set_current_setid m (u16 (current_setid m - 1)) in
  let addr := SETTINGS_OFFSET hw + 256 * current_setid m in
  set_flash m (spiflash_write_page (flash m) addr set)
            [SpiWrite addr sizeof_storedsettings_t].

(** *** [settings_init] *)

Definition settings_init (m : machine) : machine :=
  let ld := Z.lor 128 (VIDEOIF_SET_LD_ENABLE hw) in
  let ldsl := Z.lor ld (VIDEOIF_SET_SL_ALTERNATE hw) in
  let vs := video_settings (live m) in
  let vs := upd vs (mode_index VIDMODE_240p) ld in
  let vs := upd vs (mode_index VIDMODE_288p) ld in
  let vs := upd vs (mode_index VIDMODE_480i) ldsl in
  let vs := upd vs (mode_index VIDMODE_576i) ldsl in
  let vs := upd vs (mode_index VIDMODE_480p) 128 in
  let vs := upd vs (mode_index VIDMODE_576p) 128 in
  let s :=
    {| video_settings := vs;
       osdbg_settings := 5250040;
       mode_switch_delay := 0;
       resbox_enabled := true;
       audio_volume := 255;
       audio_mute := false;
       ir_codes := ir_codes (live m);
       picture_brightness := 0;
       picture_contrast := 0;
       picture_saturation := 0 |} in
  let global := VIDEOIF_SET_CABLEDETECT hw in
  let mode := detect_inputmode m in
  mkMachine s global mode (current_setid m) (VIDEOIF_flags m)
    (Z.lor (nth (mode_index mode) vs 0) global)
    (osdbg_settings s) 255 8388736
    (flash m) (spi_log m).

(** The flag [valid] of [settings_load] after its scan loop. *)
Definition scan_valid (m : machine) : bool :=
  fst (fst (scan (flash m) 256 0 set0)).

(** *** Vocabulary of the store *)

(** A slot in its erased state: each of its 256 bytes is the fill value. *)
Definition slot_erased (f : Z -> Z) (i : Z) : Prop :=
  forall k, 0 <= k < 256 -> f (SETTINGS_OFFSET hw + 256 * i + k) = 255.

Definition sector_erased (f : Z -> Z) : Prop :=
  forall i, 0 <= i < 256 -> slot_erased f i.

(** Consecutive calls of [settings_save]; the live settings may have been
    changed before each call, [l] lists their values at the calls. *)
Fixpoint run_saves (l : list settings) (m : machine) : machine :=
  match l with
  | [] => m
  | s :: l' => run_saves l' (settings_save (set_live m s))
  end.

(** Modelled from the spec: the encoder of the legacy V4 record is not in
    this firmware, which writes V5 only.  A V4 record is the same layout
    truncated before the three picture-control fields: 60 bytes, version
    byte 4, checksum over exactly those 60 bytes. *)
Definition create_record_v4 (s : settings) : buffer :=
  let set := repeat 0 (Z.to_nat SETTINGS_SIZE_V4) in
  let set := poke set OFF_version 4 in
  let set := poke_words set OFF_video_settings VIDMODE_COUNT (video_settings s) in
  let set := poke32 set OFF_osdbg_settings (osdbg_settings s) in
  let set := poke32 set OFF_mode_switch_delay (mode_switch_delay s) in
  let set := if resbox_enabled s
             then poke set OFF_flags (Z.lor (flags set) SET_FLAG_RESBOX)
             else set in
  let set := poke set OFF_volume (audio_volume s) in
  let set := if audio_mute s
             then poke set OFF_flags (Z.lor (flags set) SET_FLAG_MUTE)
             else set in
  poke_words set OFF_ir_codes NUM_IRCODES (ir_codes s).

(** Modelled from the spec: the legacy V4 record with its checksum, the
    8-bit sum of its bytes 1 to 59. *)
Definition make_record_v4 (s : settings) : buffer :=
  calculate_checksum (create_record_v4 s) (Z.to_nat SETTINGS_SIZE_V4).

(** The settings [s] with the picture controls replaced. *)
Definition with_picture (s : settings) (b c sa : Z) : settings :=
  {| video_settings := video_settings s;
     osdbg_settings := osdbg_settings s;
     mode_switch_delay := mode_switch_delay s;
     resbox_enabled := resbox_enabled s;
     audio_volume := audio_volume s;
     audio_mute := audio_mute s;
     ir_codes := ir_codes s;
     picture_brightness := b;
     picture_contrast := c;
     picture_saturation := sa |}.

End Firmware.

(** ** A concrete target and test data *)

Definition example_target : portdefs :=
  mkPortdefs true 458752 1 2 4 256 512 1024 0 8 16.

Definition erased_flash : Z -> Z := fun _ => 255.

Definition example_settings : settings :=
  mkSettings [1; 2; 3; 4; 5; 4294967295] 5250040 7 true 200 true
             [11; 12; 13; 14; 15; 16] (-1) 0 0.

(** A machine whose live picture controls are not at their defaults. *)
Definition example_machine (f : Z -> Z) (cursor : Z) : machine :=
  mkMachine (mkSettings [0; 0; 0; 0; 0; 0] 0 0 false 0 false
                        [0; 0; 0; 0; 0; 0] 9 8 7)
            0 VIDMODE_480i cursor 0 0 0 0 0 f [].

(** Slot [i] of the example sector programmed with [data]. *)
Definition program_slot (f : Z -> Z) (i : Z) (data : buffer) : Z -> Z :=
  spiflash_write_page f (SETTINGS_OFFSET example_target + 256 * i) data.

(** A torn record: version 5 with a checksum that does not match. *)
Definition torn_record : buffer := 18 :: 5 :: repeat 0 62.

(** A slot whose version and checksum bytes were never programmed while a
    later byte was. *)
Definition headless_record : buffer := 255 :: 255 :: 0 :: repeat 255 61.

(** Slot 1 valid, slot 2 torn, the rest erased. *)
Definition flash_valid1_torn2 : Z -> Z :=
  program_slot
    (program_slot erased_flash 1 (make_record example_target example_settings))
    2 torn_record.

(** Slot 1 torn, slot 2 valid, the rest erased. *)
Definition flash_torn1_valid2 : Z -> Z :=
  program_slot
    (program_slot erased_flash 2 (make_record example_target example_settings))
    1 torn_record.

(** Slot 0 without header bytes, slot 1 valid, the rest erased. *)
Definition flash_headless0_valid1 : Z -> Z :=
  program_slot
    (program_slot erased_flash 1 (make_record example_target example_settings))
    0 headless_record.

(** Slot 0 torn, the rest erased. *)
Definition flash_torn0 : Z -> Z := program_slot erased_flash 0 torn_record.

(** Slot 0 holds a legacy record, the rest is erased. *)
Definition flash_legacy0 : Z -> Z :=
  program_slot erased_flash 0 (make_record_v4 example_target example_settings).

(** Slot 5 holds a V5 record and slot 3 a V4 record, the rest is erased. *)
Definition flash_valid3_valid5 : Z -> Z :=
  program_slot
    (program_slot erased_flash 5 (make_record example_target example_settings))
    3 (make_record_v4 example_target example_settings).

(** The example machines: the live picture controls are 9, 8 and 7, the
    cursor is still 0 and the local buffer of [settings_load] starts
    empty. *)
Definition example_stack : buffer := [].

Definition machine_erased : machine := example_machine erased_flash 0.
Definition machine_valid1_torn2 : machine :=
  example_machine flash_valid1_torn2 0.
Definition machine_torn1_valid2 : machine :=
  example_machine flash_torn1_valid2 0.
Definition machine_headless0_valid1 : machine :=
  example_machine flash_headless0_valid1 0.
Definition machine_torn0 : machine := example_machine flash_torn0 0.
Definition machine_legacy0 : machine := example_machine flash_legacy0 0.
Definition machine_valid3_valid5 : machine :=
  example_machine flash_valid3_valid5 0.

(** The legacy record of the example settings as a slot read returns it:
    the four bytes after it are still erased. *)
Definition legacy_slot_image : buffer :=
  make_record_v4 example_target example_settings ++ [255; 255; 255; 255].

(** ** The rest of [settings.c] *)

(** [video_out_lines]: number of lines per frame in each video mode; even
    modes are 60Hz, odd modes are 50Hz, bit 0 is set for interlaced. *)
Definition video_out_lines (v : video_mode_t) : Z :=
  match v with
  | VIDMODE_240p => 240
  | VIDMODE_288p => 288
  | VIDMODE_480i => Z.lor 240 1
  | VIDMODE_576i => Z.lor 288 1
  | VIDMODE_480p => 480
  | VIDMODE_576p => 576
  end.

(** [set_all_modes]: the complement of the [uint32_t] flag is taken in 32
    bits. *)
Definition set_all_modes (flag : Z) (state : bool) (m : machine) : machine :=
  let global :=
    if state
    then Z.lor (video_settings_global m) flag
    else Z.land (video_settings_global m) (u32 (Z.lnot flag)) in
  mkMachine (live m) global (current_videomode m) (current_setid m)
    (VIDEOIF_flags m)
    (Z.lor (nth (mode_index (current_videomode m)) (video_settings (live m)) 0)
           global)
    (VIDEOIF_osd_bg m) (VIDEOIF_audio_volume m) (VIDEOIF_image_controls m)
    (flash m) (spi_log m).

(** The record buffer with the bytes at [p] and [q] exchanged. *)
Definition swap_bytes (set : buffer) (p q : nat) : buffer :=
  upd (upd set p (peek set q)) q (peek set p).

(** The contrast and saturation fields [update_imagecontrols] computes. *)
Definition imgctl_contrast (s : settings) : Z :=
  u8 (picture_contrast s + 128).

Definition imgctl_saturation (s : settings) : Z :=
  u16 (Z.quot ((picture_saturation s + 128) * imgctl_contrast s) 128).

Section Vocabulary.

Variable hw : portdefs.

(** The state of the log between calls: the cursor is a slot index or the
    sentinel 256 and every slot below the cursor is erased. *)
Definition store_inv (m : machine) : Prop :=
  0 <= current_setid m <= 256 /\
  forall j, 0 <= j < current_setid m -> slot_erased hw (flash m) j.

(** Two flash contents that agree on the bytes [settings_load] reads: the
    first [sizeof (storedsettings_t)] bytes of each of the 256 slots. *)
Definition same_records (f g : Z -> Z) : Prop :=
  forall i k, 0 <= i < 256 -> 0 <= k < Z.of_nat sizeof_storedsettings_t ->
              f (SETTINGS_OFFSET hw + 256 * i + k)
              = g (SETTINGS_OFFSET hw + 256 * i + k).

(** The image-control register holds what [update_imagecontrols] computes
    from the live picture controls. *)
Definition imgctl_in_sync (m : machine) : Prop :=
  VIDEOIF_image_controls m
  = VIDEOIF_image_controls (update_imagecontrols hw m).

(** The three input flags are distinct single bits. *)
Definition flag_bits (a b c : Z) : Prop :=
  0 <= a /\ 0 <= b /\ 0 <= c /\ a <> b /\ a <> c /\ b <> c /\
  VIDEOIF_FLAG_PROGRESSIVE hw = 2 ^ a /\
  VIDEOIF_FLAG_PAL hw = 2 ^ b /\
  VIDEOIF_FLAG_31KHZ hw = 2 ^ c.

End Vocabulary.

(** The union of those of the single bits [a], [b] and [c] that are
    chosen by [u], [v] and [w]. *)
Definition flag_union (a b c : Z) (u v w : bool) : Z :=
  Z.lor (Z.lor (if u then 2 ^ a else 0) (if v then 2 ^ b else 0))
        (if w then 2 ^ c else 0).

(** *** [print_resolution] *)

Section ResolutionText.

Import Ascii String.

Variable hw : portdefs.





End ResolutionText.

(** The machine [m] with the input flag register reading [fl]. *)
Definition with_flags (m : machine) (fl : Z) : machine :=
  mkMachine (live m) (video_settings_global m) (current_videomode m)
    (current_setid m) fl (VIDEOIF_settings m)
    (VIDEOIF_osd_bg m) (VIDEOIF_audio_volume m) (VIDEOIF_image_controls m)
    (flash m) (spi_log m).

(** More example machines: a fresh log with the cursor at the sentinel, a
    log with the cursor at slot 7, an erased sector in which byte 100 of
    slot 0 has been cleared, and a machine whose image-control register has
    been updated. *)
Definition machine_fresh : machine := example_machine erased_flash 256.
Definition machine_cursor7 : machine := example_machine erased_flash 7.

Definition flash_tail_written : Z -> Z :=
  spiflash_write_page erased_flash (SETTINGS_OFFSET example_target + 100) [0].

Definition machine_tail_written : machine :=
  example_machine flash_tail_written 0.

Definition machine_in_sync : machine :=
  update_imagecontrols example_target machine_erased.

(** * Properties *)

(** ** Bytes and buffers *)

Lemma u8_is_byte (z : Z) : is_byte (u8 z).
Proof. unfold is_byte, u8. apply Z.mod_pos_bound. lia. Qed.

Lemma u8_small (z : Z) : is_byte z -> u8 z = z.
Proof. unfold is_byte, u8. intros H. apply Z.mod_small. exact H. Qed.

Lemma u8_u8 (z : Z) : u8 (u8 z) = u8 z.
Proof. apply u8_small, u8_is_byte. Qed.

Lemma length_upd {A : Type} (l : list A) (n : nat) (x : A) :
  length (upd l n x) = length l.
Proof.
  revert n. induction l as [|h t IH]; intros [|n]; simpl; auto.
Qed.

Lemma nth_upd_same {A : Type} (l : list A) (n : nat) (x d : A) :
  (n < length l)%nat -> nth n (upd l n x) d = x.
Proof.
  revert n. induction l as [|h t IH]; intros [|n] H; simpl in *; try lia; auto.
  apply IH. lia.
Qed.

Lemma nth_upd_other {A : Type} (l : list A) (n k : nat) (x d : A) :
  n <> k -> nth k (upd l n x) d = nth k l d.
Proof.
  revert n k.
  induction l as [|h t IH]; intros [|n] [|k] H; simpl; auto; try congruence.
Qed.

Lemma Forall_upd {A : Type} (P : A -> Prop) (l : list A) (n : nat) (x : A) :
  P x -> Forall P l -> Forall P (upd l n x).
Proof.
  intros Hx Hl. revert n.
  induction Hl as [|h t Hh Ht IH]; intros [|n]; simpl; constructor; auto.
Qed.

Lemma bytes_ok_poke (n : nat) (set : buffer) (off : nat) (b : Z) :
  bytes_ok n set -> bytes_ok n (poke set off b).
Proof.
  intros [Hlen Hall]. split.
  - unfold poke. now rewrite length_upd.
  - apply Forall_upd; auto using u8_is_byte.
Qed.

Lemma bytes_ok_repeat (n : nat) : bytes_ok n (repeat 0 n).
Proof.
  split.
  - apply repeat_length.
  - apply Forall_forall. intros x Hx. apply repeat_spec in Hx. subst x.
    unfold is_byte. lia.
Qed.

Lemma is_byte_nth (set : buffer) (k : nat) (d : Z) :
  Forall is_byte set -> is_byte d -> is_byte (nth k set d).
Proof.
  intros Hall Hd. destruct (Nat.lt_ge_cases k (length set)) as [Hk|Hk].
  - rewrite Forall_forall in Hall. apply Hall. now apply nth_In.
  - now rewrite nth_overflow.
Qed.

Lemma land_255_byte (b : Z) : is_byte b -> Z.land 255 b = b.
Proof.
  intros Hb. rewrite Z.land_comm. change 255 with (Z.ones 8).
  rewrite Z.land_ones by lia. apply Z.mod_small. exact Hb.
Qed.

(** ** The checksum loop as a sum modulo 256 *)

Lemma checksum_loop_total (byteset : buffer) (count j : nat) (sum : Z) :
  u8 (checksum_loop byteset j count sum)
  = u8 (sum + bytes_total byteset j count).
Proof.
  revert j sum. induction count as [|c IH]; intros j sum; simpl.
  - now rewrite Z.add_0_r.
  - rewrite IH. unfold u8.
    rewrite Z.add_mod_idemp_l by lia. f_equal. lia.
Qed.

Lemma checksum_loop_byte (byteset : buffer) (count j : nat) (sum : Z) :
  is_byte sum -> is_byte (checksum_loop byteset j count sum).
Proof.
  revert j sum. induction count as [|c IH]; intros j sum H; simpl; auto.
  apply IH, u8_is_byte.
Qed.

Lemma checksum_loop_eq (byteset : buffer) (count j : nat) :
  checksum_loop byteset j count 0 = u8 (bytes_total byteset j count).
Proof.
  rewrite <- (u8_small (checksum_loop byteset j count 0)).
  - now rewrite checksum_loop_total.
  - apply checksum_loop_byte. unfold is_byte. lia.
Qed.

Lemma bytes_total_upd_outside (byteset : buffer) (p : nat) (b : Z)
      (count j : nat) :
  (p < j \/ j + count <= p)%nat ->
  bytes_total (upd byteset p b) j count = bytes_total byteset j count.
Proof.
  revert j. induction count as [|c IH]; intros j H; simpl; auto.
  rewrite IH by lia. unfold peek. rewrite nth_upd_other by lia. reflexivity.
Qed.

Lemma bytes_total_upd_inside (byteset : buffer) (p : nat) (b : Z)
      (count j : nat) :
  (j <= p < j + count)%nat -> (p < length byteset)%nat ->
  bytes_total (upd byteset p b) j count
  = bytes_total byteset j count + (b - peek byteset p).
Proof.
  revert j. induction count as [|c IH]; intros j H Hlen; simpl; [lia|].
  destruct (Nat.eq_dec j p) as [->|Hne].
  - rewrite bytes_total_upd_outside by lia.
    unfold peek at 1. rewrite nth_upd_same by lia. lia.
  - rewrite IH by lia. unfold peek at 1.
    rewrite nth_upd_other by lia. unfold peek. lia.
Qed.

Lemma bytes_total_split (byteset : buffer) (a b j : nat) :
  bytes_total byteset j (a + b)
  = bytes_total byteset j a + bytes_total byteset (j + a) b.
Proof.
  revert j. induction a as [|a IH]; intros j; simpl.
  - now rewrite Nat.add_0_r.
  - rewrite IH. replace (S j + a)%nat with (j + S a)%nat by lia. lia.
Qed.

(** ** The boot scan *)

Section Scan.

Variable hw : portdefs.
Variable set0 : buffer.

Lemma read_slot_length (f : Z -> Z) (i : Z) :
  length (read_slot hw f i) = sizeof_storedsettings_t.
Proof.
  unfold read_slot, spiflash_read_block.
  now rewrite length_map, length_seq.
Qed.

Lemma read_slot_peek (f : Z -> Z) (i : Z) (k : nat) :
  (k < sizeof_storedsettings_t)%nat ->
  peek (read_slot hw f i) k = f (SETTINGS_OFFSET hw + 256 * i + Z.of_nat k).
Proof.
  intros Hk. unfold peek, read_slot, spiflash_read_block.
  rewrite (nth_indep _ 0 (f (SETTINGS_OFFSET hw + 256 * i + Z.of_nat 0)))
    by now rewrite length_map, length_seq.
  rewrite (map_nth (fun k => f (SETTINGS_OFFSET hw + 256 * i + Z.of_nat k))).
  now rewrite seq_nth.
Qed.

(** A slot whose version and checksum bytes both read 0xFF lets the scan
    go on, whatever its other bytes are. *)
Lemma scan_slot_next (set : buffer) :
  scan_slot set = NextSlot <-> version set = 255 /\ checksum set = 255.
Proof.
  unfold scan_slot, record_valid. split.
  - destruct ((version set =? SETTINGS_VERSION) || (version set =? 4)) eqn:Hv.
    + destruct (_ && _); [discriminate|].
      destruct (version set =? 255) eqn:H1; simpl; [|discriminate].
      destruct (checksum set =? 255) eqn:H2; simpl; [|discriminate].
      intros _. split; now apply Z.eqb_eq.
    + destruct (version set =? 255) eqn:H1; simpl; [|discriminate].
      destruct (checksum set =? 255) eqn:H2; simpl; [|discriminate].
      intros _. split; now apply Z.eqb_eq.
  - intros [H1 H2]. rewrite H1, H2. reflexivity.
Qed.

Lemma scan_slot_erased (f : Z -> Z) (i : Z) :
  slot_erased hw f i -> scan_slot (read_slot hw f i) = NextSlot.
Proof.
  intros He. apply scan_slot_next. unfold version, checksum.
  rewrite !read_slot_peek by (unfold sizeof_storedsettings_t, OFF_version,
                               OFF_checksum; lia).
  split; apply He; unfold OFF_version, OFF_checksum; lia.
Qed.

Lemma scan_slot_valid (set : buffer) :
  scan_slot set = BreakValid <-> record_valid set = true.
Proof.
  unfold scan_slot. destruct (record_valid set).
  - tauto.
  - split; [|discriminate]. destruct (_ || _); discriminate.
Qed.

(** The loop passes over a run of slots that read as empty. *)
Lemma scan_skip (f : Z -> Z) (n : nat) (i k : Z) (set : buffer) :
  i < k <= i + Z.of_nat n ->
  (forall j, i <= j < k -> scan_slot (read_slot hw f j) = NextSlot) ->
  scan hw f n i set
  = scan hw f (n - Z.to_nat (k - i)) k (read_slot hw f (k - 1)).
Proof.
  revert i set. induction n as [|n IH]; intros i set Hk Hblank; [lia|].
  cbn [scan]. rewrite Hblank by lia.
  destruct (Z.eq_dec k (i + 1)) as [->|Hne].
  - replace (S n - Z.to_nat (i + 1 - i))%nat with n by lia.
    replace (i + 1 - 1) with i by lia. reflexivity.
  - rewrite (IH (i + 1)) by (try lia; intros; apply Hblank; lia).
    f_equal. lia.
Qed.

Lemma scan_found (f : Z -> Z) (k : Z) :
  0 <= k < 256 ->
  (forall j, 0 <= j < k -> scan_slot (read_slot hw f j) = NextSlot) ->
  record_valid (read_slot hw f k) = true ->
  scan hw f 256 0 set0 = (true, k, read_slot hw f k).
Proof.
  intros Hk Hblank Hvalid. apply scan_slot_valid in Hvalid.
  destruct (Z.eq_dec k 0) as [->|Hne].
  - cbn [scan]. now rewrite Hvalid.
  - rewrite (scan_skip f 256 0 k) by (auto; simpl; lia).
    destruct (256 - Z.to_nat (k - 0))%nat as [|n] eqn:Hn; [lia|].
    cbn [scan]. now rewrite Hvalid.
Qed.

Lemma scan_stopped (f : Z -> Z) (k : Z) :
  0 <= k < 256 ->
  (forall j, 0 <= j < k -> scan_slot (read_slot hw f j) = NextSlot) ->
  scan_slot (read_slot hw f k) = BreakInvalid ->
  scan hw f 256 0 set0 = (false, k, read_slot hw f k).
Proof.
  intros Hk Hblank Hstop.
  destruct (Z.eq_dec k 0) as [->|Hne].
  - cbn [scan]. now rewrite Hstop.
  - rewrite (scan_skip f 256 0 k) by (auto; simpl; lia).
    destruct (256 - Z.to_nat (k - 0))%nat as [|n] eqn:Hn; [lia|].
    cbn [scan]. now rewrite Hstop.
Qed.

Lemma scan_exhausted (f : Z -> Z) :
  (forall j, 0 <= j < 256 -> scan_slot (read_slot hw f j) = NextSlot) ->
  scan hw f 256 0 set0 = (false, 256, read_slot hw f 255).
Proof.
  intros Hblank. rewrite (scan_skip f 256 0 256) by (auto; simpl; lia).
  reflexivity.
Qed.

Lemma settings_load_found (m : machine) (k : Z) :
  0 <= k < 256 ->
  (forall j, 0 <= j < k -> scan_slot (read_slot hw (flash m) j) = NextSlot) ->
  record_valid (read_slot hw (flash m) k) = true ->
  settings_load hw set0 m
  = copy_to_main_vars hw (read_slot hw (flash m) k) (set_current_setid m k).
Proof.
  intros Hk Hblank Hvalid. unfold settings_load.
  rewrite (scan_found (flash m) k) by assumption.
  unfold u16. rewrite Z.mod_small by lia. reflexivity.
Qed.

Lemma settings_load_none (m : machine) (k : Z) :
  0 <= k <= 256 ->
  (forall j, 0 <= j < k -> scan_slot (read_slot hw (flash m) j) = NextSlot) ->
  k = 256 \/ (k < 256 /\ scan_slot (read_slot hw (flash m) k) = BreakInvalid) ->
  settings_load hw set0 m = set_current_setid m k.
Proof.
  intros Hk Hblank [->|[Hlt Hstop]]; unfold settings_load.
  - rewrite scan_exhausted by assumption. reflexivity.
  - rewrite (scan_stopped (flash m) k) by (auto; lia).
    unfold u16. rewrite Z.mod_small by lia. reflexivity.
Qed.

End Scan.

(** ** Programming the flash *)

Section Store.

Variable hw : portdefs.
Variable set0 : buffer.

Lemma bytes_ok_poke32 (n : nat) (set : buffer) (off : nat) (w : Z) :
  bytes_ok n set -> bytes_ok n (poke32 hw set off w).
Proof. intros H. unfold poke32. now repeat apply bytes_ok_poke. Qed.

Lemma bytes_ok_poke_words (n : nat) (set : buffer) (off cnt : nat)
      (src : list Z) :
  bytes_ok n set -> bytes_ok n (poke_words hw set off cnt src).
Proof.
  unfold poke_words. generalize (seq 0 cnt) as l. intros l. revert set.
  induction l as [|i l IH]; intros set H; simpl; auto.
  apply IH, bytes_ok_poke32, H.
Qed.

Lemma make_record_ok (s : settings) :
  bytes_ok sizeof_storedsettings_t (make_record hw s).
Proof.
  unfold make_record, calculate_checksum, create_record.
  repeat first
    [ apply bytes_ok_poke | apply bytes_ok_poke32 | apply bytes_ok_poke_words
    | apply bytes_ok_repeat
    | match goal with |- bytes_ok _ (if ?c then _ else _) => destruct c end ].
Qed.

Lemma read_after_program (f : Z -> Z) (addr : Z) (data : buffer) :
  Forall is_byte data ->
  (forall a, addr <= a < addr + Z.of_nat (length data) -> f a = 255) ->
  spiflash_read_block (spiflash_write_page f addr data) addr (length data)
  = data.
Proof.
  intros Hbytes Hfill. unfold spiflash_read_block.
  apply (nth_ext _ _ 0 0).
  - now rewrite length_map, length_seq.
  - intros k Hk. rewrite length_map, length_seq in Hk.
    rewrite (nth_indep _ 0
               (spiflash_write_page f addr data (addr + Z.of_nat 0)))
      by now rewrite length_map, length_seq.
    rewrite (map_nth (fun k => spiflash_write_page f addr data
                                 (addr + Z.of_nat k))).
    rewrite seq_nth by assumption. simpl Nat.add.
    unfold spiflash_write_page.
    replace ((addr <=? addr + Z.of_nat k)
             && (addr + Z.of_nat k <? addr + Z.of_nat (length data)))
      with true by (symmetry; apply andb_true_iff; split;
                    [apply Z.leb_le | apply Z.ltb_lt]; lia).
    rewrite Hfill by lia.
    replace (Z.to_nat (addr + Z.of_nat k - addr)) with k by lia.
    rewrite land_255_byte.
    + apply nth_indep. assumption.
    + apply is_byte_nth; [assumption | unfold is_byte; lia].
Qed.

Lemma write_page_outside (f : Z -> Z) (addr : Z) (data : buffer) (a : Z) :
  a < addr \/ addr + Z.of_nat (length data) <= a ->
  spiflash_write_page f addr data a = f a.
Proof.
  intros H. unfold spiflash_write_page.
  destruct (Z.leb_spec addr a);
    destruct (Z.ltb_spec a (addr + Z.of_nat (length data)));
    simpl; auto; lia.
Qed.

Lemma slot_erased_fill (i : Z) : slot_erased hw erased_flash i.
Proof. intros k Hk. reflexivity. Qed.

Lemma slot_erased_program (f : Z -> Z) (i j : Z) (data : buffer) :
  slot_erased hw f j -> i <> j -> (length data <= 256)%nat ->
  slot_erased hw (spiflash_write_page f (SETTINGS_OFFSET hw + 256 * i) data) j.
Proof.
  intros He Hne Hlen k Hk. rewrite write_page_outside; [now apply He|].
  destruct (Z.lt_ge_cases j i); [left|right]; lia.
Qed.

(** What [settings_save] does when the cursor is 0. *)
Lemma settings_save_at_zero (m : machine) :
  current_setid m = 0 ->
  let base := SETTINGS_OFFSET hw in
  let m' := settings_save hw m in
  current_setid m' = 255 /\
  live m' = live m /\
  spi_log m'
  = spi_log m ++ [SpiErase base;
                  SpiWrite (base + 256 * 255) sizeof_storedsettings_t] /\
  read_slot hw (flash m') 255 = make_record hw (live m) /\
  (forall a, base <= a < base + 65536 ->
             ~ (base + 256 * 255 <= a
                < base + 256 * 255 + Z.of_nat sizeof_storedsettings_t) ->
             flash m' a = 255) /\
  (forall a, ~ (base <= a < base + 65536) -> flash m' a = flash m a).
Proof.
  intros H0 base m'. subst m'. unfold settings_save. rewrite H0.
  simpl Z.eqb. cbv iota. cbn [current_setid set_current_setid set_flash
                               live flash spi_log].
  change (u16 (256 - 1)) with 255.
  destruct (make_record_ok (live m)) as [Hlen Hbytes].
  repeat split.
  - now rewrite <- app_assoc.
  - unfold read_slot. rewrite <- Hlen at 1. apply read_after_program; auto.
    intros a Ha. rewrite Hlen in Ha. unfold sizeof_storedsettings_t in Ha.
    unfold spiflash_erase_sector.
    replace ((SETTINGS_OFFSET hw <=? a) && (a <? SETTINGS_OFFSET hw + 65536))
      with true; [reflexivity|].
    symmetry. apply andb_true_iff. split; [apply Z.leb_le|apply Z.ltb_lt]; lia.
  - intros a Hin Hout. unfold spiflash_write_page, spiflash_erase_sector.
    rewrite Hlen. fold base.
    destruct ((base + 256 * 255 <=? a)
              && (a <? base + 256 * 255 + Z.of_nat sizeof_storedsettings_t))
      eqn:E.
    + apply andb_true_iff in E. destruct E as [E1 E2].
      apply Z.leb_le in E1. apply Z.ltb_lt in E2. lia.
    + replace ((base <=? a) && (a <? base + 65536)) with true; [reflexivity|].
      symmetry. apply andb_true_iff.
      split; [apply Z.leb_le|apply Z.ltb_lt]; lia.
  - intros a Hout. unfold spiflash_write_page, spiflash_erase_sector.
    rewrite Hlen. fold base. unfold sizeof_storedsettings_t.
    destruct ((base + 256 * 255 <=? a) && (a <? base + 256 * 255 + Z.of_nat 64))
      eqn:E.
    + apply andb_true_iff in E. destruct E as [E1 E2].
      apply Z.leb_le in E1. apply Z.ltb_lt in E2. lia.
    + destruct ((base <=? a) && (a <? base + 65536)) eqn:E'; [|reflexivity].
      apply andb_true_iff in E'. destruct E' as [E1 E2].
      apply Z.leb_le in E1. apply Z.ltb_lt in E2. lia.
Qed.

(** What [settings_save] does when the cursor is not 0. *)
Lemma settings_save_no_erase (m : machine) :
  0 < current_setid m <= 65535 ->
  current_setid (settings_save hw m) = current_setid m - 1 /\
  erase_count (settings_save hw m) = erase_count m.
Proof.
  intros Hc. unfold settings_save.
  replace (current_setid m =? 0) with false by (symmetry; apply Z.eqb_neq; lia).
  cbn [current_setid set_current_setid set_flash live flash spi_log].
  split.
  - unfold u16. apply Z.mod_small. lia.
  - unfold erase_count.
    cbn [current_setid set_current_setid set_flash live flash spi_log].
    rewrite filter_app. simpl. now rewrite app_nil_r.
Qed.

(** With the cursor at [c > 0] and the slot below it erased, the record
    is programmed into slot [c - 1] and reads back unchanged. *)
Lemma settings_save_at_cursor (m : machine) :
  0 < current_setid m <= 256 ->
  slot_erased hw (flash m) (current_setid m - 1) ->
  flash (settings_save hw m)
  = spiflash_write_page (flash m)
      (SETTINGS_OFFSET hw + 256 * (current_setid m - 1))
      (make_record hw (live m)) /\
  read_slot hw (flash (settings_save hw m)) (current_setid m - 1)
  = make_record hw (live m).
Proof.
  intros Hc He. unfold settings_save.
  replace (current_setid m =? 0) with false by (symmetry; apply Z.eqb_neq; lia).
  cbn [current_setid set_current_setid set_flash live flash spi_log].
  replace (u16 (current_setid m - 1)) with (current_setid m - 1)
    by (unfold u16; symmetry; apply Z.mod_small; lia).
  split; [reflexivity|].
  destruct (make_record_ok (live m)) as [Hlen Hbytes].
  unfold read_slot. rewrite <- Hlen at 1. apply read_after_program; auto.
  intros a Ha. rewrite Hlen in Ha. unfold sizeof_storedsettings_t in Ha.
  replace a with (SETTINGS_OFFSET hw + 256 * (current_setid m - 1)
                  + (a - (SETTINGS_OFFSET hw + 256 * (current_setid m - 1))))
    by lia.
  apply He. lia.
Qed.

Lemma run_saves_no_erase (l : list settings) (m : machine) :
  Z.of_nat (length l) <= current_setid m <= 65535 ->
  current_setid (run_saves hw l m) = current_setid m - Z.of_nat (length l) /\
  erase_count (run_saves hw l m) = erase_count m.
Proof.
  revert m. induction l as [|s l IH]; intros m Hc.
  - simpl. split; [lia|reflexivity].
  - cbn [run_saves]. simpl length in Hc.
    destruct (settings_save_no_erase (set_live m s)) as [H1 H2];
      [simpl; lia|].
    destruct (IH (settings_save hw (set_live m s))) as [H3 H4].
    + rewrite H1. simpl. lia.
    + rewrite H3, H4, H1, H2. simpl length. split; [simpl; lia|reflexivity].
Qed.

End Store.

(** ** The rotational log *)

Section Log.

Variable hw : portdefs.
Variable set0 : buffer.

Lemma scan_slot_break (set : buffer) :
  scan_slot set = BreakInvalid <->
  record_valid set = false /\ (version set <> 255 \/ checksum set <> 255).
Proof.
  unfold scan_slot. destruct (record_valid set).
  - split; [discriminate|]. intros [H _]. discriminate.
  - destruct (Z.eqb_spec (version set) 255) as [H1|H1];
      destruct (Z.eqb_spec (checksum set) 255) as [H2|H2]; simpl.
    + split; [discriminate|]. intros [_ [H|H]]; contradiction.
    + split; auto.
    + split; auto.
    + split; auto.
Qed.

Lemma scan_index (f : Z -> Z) (n : nat) (i : Z) (set : buffer) :
  i <= snd (fst (scan hw f n i set)) <= i + Z.of_nat n.
Proof.
  revert i set. induction n as [|n IH]; intros i set.
  - simpl. lia.
  - cbn [scan]. destruct (scan_slot (read_slot hw f i)); simpl; try lia.
    specialize (IH (i + 1) (read_slot hw f i)). lia.
Qed.

Lemma copy_to_main_vars_cursor (set : buffer) (m : machine) :
  current_setid (copy_to_main_vars hw set m) = current_setid m.
Proof.
  unfold copy_to_main_vars. destruct (5 <=? version set); reflexivity.
Qed.

(** C6: when [settings_save] is called with the cursor at 0, it first
    erases the settings sector and then programs the new record into slot
    255 of the erased sector; the cursor ends at 255 and every other slot
    is left erased. *)
Theorem save_exhaustion_triggers_erase (m : machine) :
  current_setid m = 0 ->
  let base := SETTINGS_OFFSET hw in
  let m' := settings_save hw m in
  spi_log m'
  = spi_log m ++ [SpiErase base;
                  SpiWrite (base + 256 * 255) sizeof_storedsettings_t] /\
  current_setid m' = 255 /\
  (forall a, flash m' a
             = spiflash_write_page (spiflash_erase_sector (flash m) base)
                 (base + 256 * 255) (make_record hw (live m)) a) /\
  read_slot hw (flash m') 255 = make_record hw (live m) /\
  (forall a, base <= a < base + 65536 ->
             ~ (base + 256 * 255 <= a
                < base + 256 * 255 + Z.of_nat sizeof_storedsettings_t) ->
             flash m' a = 255) /\
  (forall i, 0 <= i < 255 -> slot_erased hw (flash m') i).
Proof.
  intros H0 base m'.
  destruct (settings_save_at_zero hw m H0) as (Hc & _ & Hlog & Hrd & Hin & _).
  fold base in Hlog, Hin. fold m' in Hc, Hlog, Hrd, Hin.
  split; [exact Hlog|]. split; [exact Hc|]. split; [|split; [exact Hrd|split]].
  - intros a. subst m'. unfold settings_save. rewrite H0. reflexivity.
  - exact Hin.
  - intros i Hi k Hk. apply Hin; unfold sizeof_storedsettings_t; lia.
Qed.

(** C7: from a freshly erased sector the boot scan leaves the cursor at
    the sentinel 256; none of the next 256 calls of [settings_save] erases
    the sector, and the 257th call performs exactly one erase. *)
Theorem wear_amortization (m : machine) (l : list settings) (s : settings) :
  sector_erased hw (flash m) ->
  length l = 256%nat ->
  let m0 := settings_load hw set0 m in
  current_setid m0 = 256 /\
  (forall n, (n <= 256)%nat ->
             erase_count (run_saves hw (firstn n l) m0) = erase_count m0) /\
  erase_count (settings_save hw (set_live (run_saves hw l m0) s))
  = S (erase_count m0).
Proof.
  intros Herased Hlen m0.
  assert (Hm0 : m0 = set_current_setid m 256).
  { apply settings_load_none; [lia| |now left].
    intros j Hj. apply scan_slot_erased, Herased. lia. }
  assert (Hc : current_setid m0 = 256) by now rewrite Hm0.
  split; [exact Hc|]. split.
  - intros n Hn. apply run_saves_no_erase. rewrite Hc.
    rewrite length_firstn. lia.
  - destruct (run_saves_no_erase hw l m0) as [Hcur Hcnt].
    { rewrite Hc, Hlen. lia. }
    rewrite Hlen in Hcur. rewrite Hc in Hcur.
    destruct (settings_save_at_zero hw (set_live (run_saves hw l m0) s))
      as (_ & _ & Hlog & _); [simpl; lia|].
    unfold erase_count at 1. rewrite Hlog. rewrite filter_app, length_app.
    simpl. unfold erase_count in Hcnt. rewrite Hcnt. unfold erase_count. lia.
Qed.

(** C8: when slots 5 and 3 hold valid records and every slot below 3 is
    erased, [settings_load] takes the record of slot 3 and sets the cursor
    to 3. *)
Theorem newest_wins (m : machine) :
  (forall j, 0 <= j < 3 -> slot_erased hw (flash m) j) ->
  record_valid (read_slot hw (flash m) 3) = true ->
  record_valid (read_slot hw (flash m) 5) = true ->
  scan hw (flash m) 256 0 set0 = (true, 3, read_slot hw (flash m) 3) /\
  settings_load hw set0 m
  = copy_to_main_vars hw (read_slot hw (flash m) 3) (set_current_setid m 3) /\
  current_setid (settings_load hw set0 m) = 3.
Proof.
  intros Herased H3 _.
  assert (Hblank : forall j, 0 <= j < 3 ->
                             scan_slot (read_slot hw (flash m) j) = NextSlot).
  { intros j Hj. now apply scan_slot_erased, Herased. }
  split; [|split].
  - apply scan_found; auto. lia.
  - apply settings_load_found; auto. lia.
  - rewrite (settings_load_found hw set0 m 3) by (auto; lia).
    now rewrite copy_to_main_vars_cursor.
Qed.

(** C9: when the scan of [settings_load] ends without a valid record, the
    machine is left as it was except for the cursor [current_setid]: all
    live settings variables, the image-control register and the flash are
    unchanged. *)
Theorem load_atomic_on_failure (m : machine) :
  scan_valid hw set0 m = false ->
  exists k, 0 <= k <= 256 /\ settings_load hw set0 m = set_current_setid m k.
Proof.
  unfold scan_valid, settings_load. intros Hv.
  pose proof (scan_index (flash m) 256 0 set0) as Hi.
  destruct (scan hw (flash m) 256 0 set0) as [[valid i] set].
  simpl in Hv, Hi. subst valid. exists i. split; [lia|].
  unfold u16. rewrite Z.mod_small by lia. reflexivity.
Qed.

(** C10: when slot 0 holds a written but invalid record, the boot scan
    stops there with the cursor at 0, and the next [settings_save] erases
    the whole sector before programming the new record into slot 255. *)
Theorem corrupt_slot0_forces_erase (m : machine) :
  record_valid (read_slot hw (flash m) 0) = false ->
  version (read_slot hw (flash m) 0) <> 255
  \/ checksum (read_slot hw (flash m) 0) <> 255 ->
  let base := SETTINGS_OFFSET hw in
  let m1 := settings_load hw set0 m in
  let m2 := settings_save hw m1 in
  m1 = set_current_setid m 0 /\
  spi_log m2
  = spi_log m ++ [SpiErase base;
                  SpiWrite (base + 256 * 255) sizeof_storedsettings_t] /\
  current_setid m2 = 255 /\
  read_slot hw (flash m2) 255 = make_record hw (live m) /\
  (forall a, base <= a < base + 65536 ->
             ~ (base + 256 * 255 <= a
                < base + 256 * 255 + Z.of_nat sizeof_storedsettings_t) ->
             flash m2 a = 255) /\
  (forall i, 0 <= i < 255 -> slot_erased hw (flash m2) i).
Proof.
  intros Hinv Hwritten base m1 m2.
  assert (Hm1 : m1 = set_current_setid m 0).
  { apply settings_load_none; [lia|intros; lia|right].
    split; [lia|]. apply scan_slot_break. now split. }
  destruct (settings_save_at_zero hw m1) as (Hc & _ & Hlog & Hrd & Hin & _).
  { now rewrite Hm1. }
  fold m2 in Hc, Hlog, Hrd, Hin. fold base in Hlog, Hin.
  rewrite Hm1 in Hlog, Hrd. cbn [spi_log live set_current_setid] in Hlog, Hrd.
  split; [exact Hm1|]. split; [exact Hlog|]. split; [exact Hc|].
  split; [exact Hrd|]. split; [exact Hin|].
  intros i Hi k Hk. apply Hin; unfold sizeof_storedsettings_t; lia.
Qed.

End Log.

(** ** The checksum *)

Section Checksum.

Lemma peek_upd_same (set : buffer) (p : nat) (x : Z) :
  (p < length set)%nat -> peek (upd set p x) p = x.
Proof. intros H. unfold peek. now apply nth_upd_same. Qed.

Lemma peek_upd_other (set : buffer) (p q : nat) (x : Z) :
  p <> q -> peek (upd set p x) q = peek set q.
Proof. intros H. unfold peek. now apply nth_upd_other. Qed.

Lemma record_valid_iff (set : buffer) :
  record_valid set = true <->
  (version set = 4 /\ u8 (bytes_total set 1 59) = checksum set) \/
  (version set = 5 /\ u8 (bytes_total set 1 62) = checksum set).
Proof.
  unfold record_valid, record_size, SETTINGS_VERSION, SETTINGS_SIZE_V4,
    SETTINGS_SIZE_V5.
  destruct (Z.eqb_spec (version set) 4) as [H4|H4].
  - rewrite orb_true_r. change (Z.to_nat 60 - 1)%nat with 59%nat.
    rewrite checksum_loop_eq. simpl negb. rewrite andb_true_l.
    rewrite Z.eqb_eq. split; [now left|]. intros [[_ H]|[H _]]; [exact H|lia].
  - destruct (Z.eqb_spec (version set) 5) as [H5|H5]; simpl orb; cbv iota.
    + change (Z.to_nat 63 - 1)%nat with 62%nat.
      rewrite checksum_loop_eq. simpl negb. rewrite andb_true_l.
      rewrite Z.eqb_eq. split; [now right|].
      intros [[H _]|[_ H]]; [lia|exact H].
    + split; [discriminate|]. intros [[H _]|[H _]]; contradiction.
Qed.

Lemma lxor_bit_byte (b k : Z) :
  is_byte b -> 0 <= k < 8 ->
  is_byte (Z.lxor b (2 ^ k)) /\ Z.lxor b (2 ^ k) <> b.
Proof.
  intros Hb Hk. split.
  - assert (Hm : 0 < 2 ^ k < 256).
    { split; [apply Z.pow_pos_nonneg; lia|].
      change 256 with (2 ^ 8). apply Z.pow_lt_mono_r; lia. }
    unfold is_byte in *.
    assert (H0 : 0 <= Z.lxor b (2 ^ k)) by (apply Z.lxor_nonneg; lia).
    split; [exact H0|].
    destruct (Z.eq_dec (Z.lxor b (2 ^ k)) 0) as [->|Hnz]; [lia|].
    change 256 with (2 ^ 8). apply Z.log2_lt_pow2; [lia|].
    pose proof (Z.log2_lxor b (2 ^ k) ltac:(lia) ltac:(lia)) as Hl.
    assert (Z.log2 b < 8).
    { destruct (Z.eq_dec b 0) as [->|]; [simpl; lia|].
      apply Z.log2_lt_pow2; lia. }
    assert (Z.log2 (2 ^ k) < 8) by (rewrite Z.log2_pow2; lia).
    lia.
  - intros Heq.
    assert (Hz : Z.lxor b (Z.lxor b (2 ^ k)) = 0)
      by (rewrite Heq; apply Z.lxor_nilpotent).
    rewrite <- Z.lxor_assoc, Z.lxor_nilpotent, Z.lxor_0_l in Hz.
    pose proof (Z.pow_pos_nonneg 2 k). lia.
Qed.

(** C4: a single-bit flip at a byte covered by the declared size of a
    valid record makes the record invalid, with one exception: inverting
    bit 0 of the version byte, which exchanges versions 4 and 5, leaves the
    record valid exactly when the three bytes of the picture controls sum
    to 255 modulo 256. *)
Theorem single_bit_flip_detected (set : buffer) (p : nat) (k : Z) :
  bytes_ok sizeof_storedsettings_t set ->
  record_valid set = true ->
  (p < Z.to_nat (record_size (version set)))%nat ->
  0 <= k < 8 ->
  record_valid (flip_bit set p k) = true <->
  p = OFF_version /\ k = 0 /\
  u8 (peek set OFF_brightness + peek set OFF_contrast
      + peek set OFF_saturation) = 255.
Proof.
  intros [Hlen Hall] Hvalid Hp Hk.
  assert (Hb : is_byte (peek set p)).
  { apply is_byte_nth; [assumption|unfold is_byte; lia]. }
  destruct (lxor_bit_byte (peek set p) k Hb Hk) as [Hb' Hne].
  assert (Hsplit : bytes_total set 1 62
                   = bytes_total set 1 59
                     + (peek set 60 + peek set 61 + peek set 62)).
  { change 62%nat with (59 + 3)%nat. rewrite bytes_total_split. simpl. lia. }
  assert (Hsize : (p < 60)%nat \/ (version set = 5 /\ (p < 63)%nat)).
  { revert Hp. unfold record_size, SETTINGS_SIZE_V4, SETTINGS_SIZE_V5.
    destruct (Z.eqb_spec (version set) 4); [lia|].
    destruct (Z.eqb_spec (version set) 5); [|simpl; lia]. intros; right; lia. }
  apply record_valid_iff in Hvalid. rewrite record_valid_iff.
  unfold flip_bit, version, checksum, OFF_version, OFF_checksum,
    OFF_brightness, OFF_contrast, OFF_saturation,
    sizeof_storedsettings_t in *.
  set (b := peek set p) in *. set (b' := Z.lxor b (2 ^ k)) in *.
  unfold is_byte in Hb, Hb'.
  destruct p as [|[|p]].
  - (* the checksum byte *)
    rewrite peek_upd_same by lia. rewrite peek_upd_other by lia.
    rewrite !bytes_total_upd_outside by lia.
    split; [|intros [H _]; discriminate].
    intros H; exfalso. subst b. lia.
  - (* the version byte *)
    rewrite peek_upd_same by lia. rewrite peek_upd_other by lia.
    rewrite !bytes_total_upd_inside by lia. fold b. rewrite Hsplit in *.
    set (X := bytes_total set 1 59) in *.
    set (T := peek set 60 + peek set 61 + peek set 62) in *.
    set (c := peek set 0) in *. unfold u8 in *.
    assert (Hcases : k = 0 \/ k = 1 \/ k = 2 \/ k = 3 \/ k = 4 \/ k = 5
                     \/ k = 6 \/ k = 7) by lia.
    subst b' b. fold c.
    destruct Hvalid as [[Hv Hsum]|[Hv Hsum]]; rewrite Hv;
      destruct Hcases as [->|[->|[->|[->|[->|[->|[->| ->]]]]]]];
      simpl Z.lxor; clearbody X T c; clear -Hsum;
      (split; [intros [[H1 H2]|[H1 H2]]; try discriminate H1;
               (split; [reflexivity|split; [reflexivity|]]);
               Z.div_mod_to_equations; lia
              |intros (_ & Hk0 & HT); try discriminate Hk0;
               first [left; split; [reflexivity|]
                     |right; split; [reflexivity|]];
               Z.div_mod_to_equations; lia]).
  - (* a byte after the version *)
    rewrite !peek_upd_other by lia.
    split; [|intros [H _]; discriminate].
    intros H; exfalso.
    destruct Hvalid as [[Hv Hsum]|[Hv Hsum]];
      destruct H as [[Hv' Hsum']|[Hv' Hsum']]; try lia.
    + destruct Hsize as [Hs|[Hs _]]; [|lia].
      rewrite bytes_total_upd_inside in Hsum' by lia. fold b in Hsum'.
      rewrite <- Hsum in Hsum'. unfold u8 in Hsum'. clear -Hsum' Hne Hb Hb'.
      Z.div_mod_to_equations. lia.
    + assert (Hs : (S (S p) < 63)%nat) by (destruct Hsize; lia).
      rewrite bytes_total_upd_inside in Hsum' by lia. fold b in Hsum'.
      rewrite <- Hsum in Hsum'. unfold u8 in Hsum'. clear -Hsum' Hne Hb Hb'.
      Z.div_mod_to_equations. lia.
Qed.

End Checksum.

(** ** The record codec *)

Section Codec.

Variable hw : portdefs.
Variable set0 : buffer.

(** Symbolic evaluation of a record built from settings whose arrays are
    given element by element. *)
Ltac eval_record :=
  cbv [make_record make_record_v4 calculate_checksum
       create_record create_record_v4 poke_words poke32 poke upd fold_left
       seq repeat app map
       OFF_checksum OFF_version OFF_flags OFF_volume OFF_video_settings
       OFF_osdbg_settings OFF_mode_switch_delay OFF_ir_codes OFF_brightness
       OFF_contrast OFF_saturation VIDMODE_COUNT NUM_IRCODES
       sizeof_storedsettings_t Nat.add Nat.mul
       peek_words peek32 peek nth
       checksum version flags volume brightness contrast saturation
       video_settings osdbg_settings mode_switch_delay resbox_enabled
       audio_volume audio_mute ir_codes picture_brightness picture_contrast
       picture_saturation with_picture
       SETTINGS_SIZE_V4 Z.to_nat Pos.to_nat Pos.iter_op].

Lemma le_word (w : Z) :
  w mod 256 + 256 * ((w / 256) mod 256) + 65536 * ((w / 65536) mod 256)
  + 16777216 * ((w / 16777216) mod 256) = w mod 4294967296.
Proof.
  rewrite (Z.mod_eq w 4294967296) by lia.
  pose proof (Z.div_mod w 256 ltac:(lia)).
  replace (w / 65536) with (w / 256 / 256)
    by (rewrite Z.div_div by lia; reflexivity).
  replace (w / 16777216) with (w / 256 / 256 / 256)
    by (rewrite !Z.div_div by lia; reflexivity).
  replace (w / 4294967296) with (w / 256 / 256 / 256 / 256)
    by (rewrite !Z.div_div by lia; reflexivity).
  set (a := w / 256) in *.
  pose proof (Z.div_mod a 256 ltac:(lia)).
  set (b := a / 256) in *.
  pose proof (Z.div_mod b 256 ltac:(lia)).
  set (c := b / 256) in *.
  pose proof (Z.div_mod c 256 ltac:(lia)).
  set (d := c / 256) in *.
  lia.
Qed.

Lemma word_round_trip (w : Z) :
  bytes_word hw [u8 (word_byte hw 0 w); u8 (word_byte hw 1 w);
                 u8 (word_byte hw 2 w); u8 (word_byte hw 3 w)] = u32 w.
Proof.
  unfold bytes_word, word_byte, word_bytes.
  destruct (big_endian hw); cbn [rev app nth]; rewrite !u8_u8;
    unfold u8, u32; rewrite <- le_word; lia.
Qed.

Lemma u32_small (w : Z) : is_u32 w -> u32 w = w.
Proof. unfold is_u32, u32. intros H. now apply Z.mod_small. Qed.

Lemma s8_u8 (w : Z) : is_s8 w -> s8 (u8 w) = w.
Proof.
  unfold is_s8, s8, u8. intros H.
  destruct (Z.ltb_spec (w mod 256) 128); Z.div_mod_to_equations; lia.
Qed.

Lemma land_byte_255 (b : Z) : Z.land (u8 b) 255 = u8 b.
Proof.
  change 255 with (Z.ones 8). rewrite Z.land_ones by lia.
  apply u8_u8.
Qed.

Lemma six_words (l : list Z) :
  length l = 6%nat -> Forall is_u32 l ->
  exists a b c d e f,
    l = [a; b; c; d; e; f] /\ is_u32 a /\ is_u32 b /\ is_u32 c /\
    is_u32 d /\ is_u32 e /\ is_u32 f.
Proof.
  intros Hlen Hall.
  destruct l as [|a [|b [|c [|d [|e [|f [|]]]]]]]; try discriminate.
  repeat match goal with
         | H : Forall _ (_ :: _) |- _ => inversion H; subst; clear H
         end.
  exists a, b, c, d, e, f. tauto.
Qed.

(** What [settings_load] leaves in the main variables. *)
Lemma live_copy_to_main_vars (set : buffer) (m : machine) :
  live (copy_to_main_vars hw set m)
  = let v5 := 5 <=? version set in
    {| video_settings := peek_words hw set OFF_video_settings VIDMODE_COUNT;
       osdbg_settings := peek32 hw set OFF_osdbg_settings;
       mode_switch_delay := peek32 hw set OFF_mode_switch_delay;
       resbox_enabled := negb (Z.land (flags set) SET_FLAG_RESBOX =? 0);
       audio_volume := Z.land (volume set) 255;
       audio_mute := negb (Z.land (flags set) SET_FLAG_MUTE =? 0);
       ir_codes := peek_words hw set OFF_ir_codes NUM_IRCODES;
       picture_brightness :=
         if v5 then brightness set else picture_brightness (live m);
       picture_contrast :=
         if v5 then contrast set else picture_contrast (live m);
       picture_saturation :=
         if v5 then saturation set else picture_saturation (live m) |}.
Proof.
  unfold copy_to_main_vars. destruct (5 <=? version set); reflexivity.
Qed.

Lemma decode_v5 (s : settings) (m : machine) :
  settings_ok s ->
  live (copy_to_main_vars hw (make_record hw s) m) = s.
Proof.
  intros (Hl1 & Hv & Ho & Hd & Hvol & Hl2 & Hi & Hb & Hc & Hsa).
  rewrite live_copy_to_main_vars.
  destruct s as [vs o d r vol mu irs b c sa].
  cbn [video_settings osdbg_settings mode_switch_delay audio_volume ir_codes
       picture_brightness picture_contrast picture_saturation]
    in Hl1, Hv, Ho, Hd, Hvol, Hl2, Hi, Hb, Hc, Hsa.
  destruct (six_words vs Hl1 Hv)
    as (v0 & v1 & v2 & v3 & v4 & v5 & -> & ? & ? & ? & ? & ? & ?).
  destruct (six_words irs Hl2 Hi)
    as (i0 & i1 & i2 & i3 & i4 & i5 & -> & ? & ? & ? & ? & ? & ?).
  destruct r, mu; eval_record; cbv zeta;
    rewrite !word_round_trip, !u32_small by assumption;
    rewrite land_byte_255, (u8_small vol) by assumption;
    change (5 <=? u8 SETTINGS_VERSION) with true; cbv iota;
    rewrite !s8_u8 by assumption; reflexivity.
Qed.

Lemma decode_v4 (s : settings) (m : machine) (tail : buffer) :
  settings_ok s ->
  length tail = 4%nat ->
  live (copy_to_main_vars hw (make_record_v4 hw s ++ tail) m)
  = with_picture s (picture_brightness (live m)) (picture_contrast (live m))
                 (picture_saturation (live m)).
Proof.
  intros (Hl1 & Hv & Ho & Hd & Hvol & Hl2 & Hi & Hb & Hc & Hsa) Htail.
  rewrite live_copy_to_main_vars.
  destruct tail as [|t0 [|t1 [|t2 [|t3 [|]]]]]; try discriminate.
  generalize (live m) as pm. intros [? ? ? ? ? ? ? pb pc ps].
  destruct s as [vs o d r vol mu irs b c sa].
  cbn [video_settings osdbg_settings mode_switch_delay audio_volume ir_codes
       picture_brightness picture_contrast picture_saturation]
    in Hl1, Hv, Ho, Hd, Hvol, Hl2, Hi, Hb, Hc, Hsa.
  destruct (six_words vs Hl1 Hv)
    as (v0 & v1 & v2 & v3 & v4 & v5 & -> & ? & ? & ? & ? & ? & ?).
  destruct (six_words irs Hl2 Hi)
    as (i0 & i1 & i2 & i3 & i4 & i5 & -> & ? & ? & ? & ? & ? & ?).
  destruct r, mu; eval_record; cbv zeta;
    rewrite !word_round_trip, !u32_small by assumption;
    rewrite land_byte_255, (u8_small vol) by assumption;
    change (5 <=? u8 4) with false; cbv iota; reflexivity.
Qed.

Lemma create_record_ok (s : settings) :
  bytes_ok sizeof_storedsettings_t (create_record hw s).
Proof.
  unfold create_record.
  repeat first
    [ apply bytes_ok_poke | apply bytes_ok_poke32 | apply bytes_ok_poke_words
    | apply bytes_ok_repeat
    | match goal with |- bytes_ok _ (if ?c then _ else _) => destruct c end ].
Qed.

Lemma create_record_v4_ok (s : settings) :
  bytes_ok 60 (create_record_v4 hw s).
Proof.
  unfold create_record_v4. change (Z.to_nat SETTINGS_SIZE_V4) with 60%nat.
  repeat first
    [ apply bytes_ok_poke | apply bytes_ok_poke32 | apply bytes_ok_poke_words
    | apply bytes_ok_repeat
    | match goal with |- bytes_ok _ (if ?c then _ else _) => destruct c end ].
Qed.

Lemma create_record_frame (s : settings) :
  peek (create_record hw s) 1 = 5 /\ peek (create_record hw s) 63 = 0.
Proof.
  destruct s as [vs o d r vol mu irs b c sa].
  destruct r, mu; eval_record; split; reflexivity.
Qed.

Lemma create_record_v4_frame (s : settings) :
  peek (create_record_v4 hw s) 1 = 4.
Proof.
  destruct s as [vs o d r vol mu irs b c sa].
  destruct r, mu; eval_record; reflexivity.
Qed.

Lemma make_record_valid (s : settings) :
  record_valid (make_record hw s) = true.
Proof.
  destruct (create_record_ok s) as [Hlen _].
  destruct (create_record_frame s) as [Hver Hpad].
  apply record_valid_iff. right.
  unfold make_record, calculate_checksum, poke, version, checksum,
    OFF_version, OFF_checksum, sizeof_storedsettings_t in *.
  set (pre := create_record hw s) in *.
  rewrite peek_upd_other by lia. rewrite peek_upd_same by lia.
  rewrite bytes_total_upd_outside by lia.
  split; [exact Hver|].
  change (64 - 1)%nat with (62 + 1)%nat.
  rewrite checksum_loop_eq, u8_u8, bytes_total_split.
  change (bytes_total pre (1 + 62) 1) with (peek pre 63 + 0).
  rewrite Hpad. f_equal. lia.
Qed.

Lemma bytes_total_app (l tail : buffer) (count j : nat) :
  (j + count <= length l)%nat ->
  bytes_total (l ++ tail) j count = bytes_total l j count.
Proof.
  revert j. induction count as [|c IH]; intros j H; simpl; auto.
  rewrite IH by lia. unfold peek. rewrite app_nth1 by lia. reflexivity.
Qed.

Lemma make_record_v4_valid (s : settings) (tail : buffer) :
  record_valid (make_record_v4 hw s ++ tail) = true
  /\ version (make_record_v4 hw s ++ tail) = 4.
Proof.
  destruct (create_record_v4_ok s) as [Hlen _].
  pose proof (create_record_v4_frame s) as Hver.
  assert (Hv : version (make_record_v4 hw s ++ tail) = 4).
  { unfold make_record_v4, calculate_checksum, poke, version, OFF_version,
      OFF_checksum, peek.
    rewrite app_nth1 by (rewrite length_upd; lia).
    rewrite nth_upd_other by lia. exact Hver. }
  split; [|exact Hv].
  apply record_valid_iff. left. split; [exact Hv|].
  unfold make_record_v4, calculate_checksum, poke, checksum, OFF_checksum.
  change (Z.to_nat SETTINGS_SIZE_V4 - 1)%nat with 59%nat.
  set (pre := create_record_v4 hw s) in *.
  rewrite bytes_total_app by (rewrite length_upd; lia).
  rewrite bytes_total_upd_outside by lia.
  unfold peek. rewrite app_nth1 by (rewrite length_upd; lia).
  rewrite nth_upd_same by lia.
  now rewrite checksum_loop_eq, u8_u8.
Qed.

Lemma image_controls_v4 (set : buffer) (m : machine) :
  version set = 4 ->
  VIDEOIF_image_controls (copy_to_main_vars hw set m)
  = VIDEOIF_image_controls m.
Proof.
  intros Hv. unfold copy_to_main_vars. rewrite Hv. reflexivity.
Qed.

End Codec.

(** ** Properties of the codec and of the scan *)

Section Claims.

Variable hw : portdefs.
Variable set0 : buffer.

(** Saving and loading again: [settings_save] followed by
    [settings_load] restores the saved settings over whatever the live
    variables hold in between, provided the slots below the cursor are
    erased, as they are while the log is used by these two functions. *)
Lemma save_then_load (m : machine) (s' : settings) :
  0 <= current_setid m <= 256 ->
  (forall j, 0 <= j < current_setid m -> slot_erased hw (flash m) j) ->
  settings_ok (live m) ->
  live (settings_load hw set0 (set_live (settings_save hw m) s')) = live m.
Proof.
  intros Hc Herased Hok.
  destruct (Z.eq_dec (current_setid m) 0) as [H0|Hne].
  - destruct (settings_save_at_zero hw m H0) as (_ & _ & _ & Hrd & Hin & _).
    rewrite (settings_load_found hw set0 _ 255).
    + cbn [flash set_live]. rewrite Hrd. now apply decode_v5.
    + lia.
    + intros j Hj. apply scan_slot_erased. intros k Hk. cbn [flash set_live].
      apply Hin; unfold sizeof_storedsettings_t; lia.
    + cbn [flash set_live]. rewrite Hrd. apply make_record_valid.
  - destruct (settings_save_at_cursor hw m) as [Hfl Hrd];
      [lia|apply Herased; lia|].
    rewrite (settings_load_found hw set0 _ (current_setid m - 1)).
    + cbn [flash set_live]. rewrite Hrd. now apply decode_v5.
    + lia.
    + intros j Hj. apply scan_slot_erased. cbn [flash set_live]. rewrite Hfl.
      apply slot_erased_program; [apply Herased; lia|lia|].
      destruct (make_record_ok hw (live m)) as [Hlen _]. rewrite Hlen.
      unfold sizeof_storedsettings_t. lia.
    + cbn [flash set_live]. rewrite Hrd. apply make_record_valid.
Qed.

(** C1: the V5 record made by [settings_save] is valid and, copied back
    by [settings_load], restores every live settings variable, whatever
    they held before.  A legacy V4 record of the same settings is valid and
    restores every variable it carries; the picture controls keep the
    values they had before the load, which are the defaults 0 when the
    load follows [settings_init].  The V5 round trip also holds through the
    flash: a save into a log whose slots below the cursor are erased,
    followed by a load, restores the saved settings. *)
Theorem record_round_trip (s : settings) (m : machine) (tail : buffer) :
  settings_ok s ->
  length tail = 4%nat ->
  record_valid (make_record hw s) = true /\
  live (copy_to_main_vars hw (make_record hw s) m) = s /\
  record_valid (make_record_v4 hw s ++ tail) = true /\
  live (copy_to_main_vars hw (make_record_v4 hw s ++ tail) m)
  = with_picture s (picture_brightness (live m)) (picture_contrast (live m))
                 (picture_saturation (live m)) /\
  live (copy_to_main_vars hw (make_record_v4 hw s ++ tail)
          (settings_init hw m))
  = with_picture s 0 0 0 /\
  (0 <= current_setid m <= 256 ->
   (forall j, 0 <= j < current_setid m -> slot_erased hw (flash m) j) ->
   forall s',
     live (settings_load hw set0
             (set_live (settings_save hw (set_live m s)) s')) = s).
Proof.
  intros Hok Htail. split; [apply make_record_valid|].
  split; [now apply decode_v5|].
  split; [apply make_record_v4_valid|].
  split; [now apply decode_v4|].
  split; [now rewrite decode_v4|].
  intros Hc Herased s'.
  now rewrite (save_then_load (set_live m s) s').
Qed.

(** C2: when slot 0 is erased, slot 1 holds a written but invalid record
    and slot 2 holds a valid record, the scan stops at slot 1 and reports
    no record: the cursor is 1 and nothing else changes.  The scan does not
    go past slot 1 to the valid record of slot 2. *)
Theorem scan_stops_at_corruption (m : machine) :
  slot_erased hw (flash m) 0 ->
  record_valid (read_slot hw (flash m) 1) = false ->
  version (read_slot hw (flash m) 1) <> 255
  \/ checksum (read_slot hw (flash m) 1) <> 255 ->
  record_valid (read_slot hw (flash m) 2) = true ->
  scan_valid hw set0 m = false /\
  settings_load hw set0 m = set_current_setid m 1.
Proof.
  intros Herased Hinv Hwritten _.
  assert (Hblank : forall j, 0 <= j < 1 ->
                             scan_slot (read_slot hw (flash m) j) = NextSlot).
  { intros j Hj. replace j with 0 by lia. now apply scan_slot_erased. }
  assert (Hstop : scan_slot (read_slot hw (flash m) 1) = BreakInvalid).
  { apply scan_slot_break. now split. }
  split.
  - unfold scan_valid. rewrite (scan_stopped hw set0 (flash m) 1); auto. lia.
  - apply settings_load_none; auto; [lia|]. right. split; [lia|exact Hstop].
Qed.

(** C3: a slot that does not hold a valid record lets the scan go on
    exactly when its version byte and its checksum byte both read 0xFF, as
    they do in an erased slot; when either of the two differs from 0xFF the
    scan stops at that slot and reports no record.  The other bytes of the
    slot are not examined. *)
Theorem invalid_slot_classification (m : machine) (k : Z) :
  0 <= k < 256 ->
  (forall j, 0 <= j < k ->
             scan_slot (read_slot hw (flash m) j) = NextSlot) ->
  record_valid (read_slot hw (flash m) k) = false ->
  let set := read_slot hw (flash m) k in
  (scan_slot set = NextSlot <-> version set = 255 /\ checksum set = 255) /\
  (version set = 255 /\ checksum set = 255 ->
   k < snd (fst (scan hw (flash m) 256 0 set0))) /\
  (version set <> 255 \/ checksum set <> 255 ->
   scan_valid hw set0 m = false /\
   settings_load hw set0 m = set_current_setid m k) /\
  (slot_erased hw (flash m) k -> version set = 255 /\ checksum set = 255).
Proof.
  intros Hk Hblank Hinv set. split; [apply scan_slot_next|]. split; [|split].
  - intros Hff. apply scan_slot_next in Hff.
    rewrite (scan_skip hw (flash m) 256 0 (k + 1)).
    + pose proof (scan_index hw (flash m) (256 - Z.to_nat (k + 1 - 0)) (k + 1)
                    (read_slot hw (flash m) (k + 1 - 1))). lia.
    + simpl. lia.
    + intros j Hj. destruct (Z.eq_dec j k) as [->|]; [exact Hff|].
      apply Hblank. lia.
  - intros Hwritten.
    assert (Hstop : scan_slot set = BreakInvalid).
    { apply scan_slot_break. now split. }
    split.
    + unfold scan_valid. now rewrite (scan_stopped hw set0 (flash m) k).
    + apply settings_load_none; auto; [lia|]. right. split; [lia|exact Hstop].
  - intros Herased. now apply scan_slot_next, scan_slot_erased.
Qed.

(** C5: loading a valid legacy V4 record sets the per-mode video
    settings, OSD background, mode-switch delay, resbox flag, volume, mute
    flag and IR codes from the record and the cursor to its slot; the
    picture controls and the image-control register are left as they were
    before the load, so they are the defaults 0 when the load follows
    [settings_init]. *)
Theorem legacy_record_migration (m : machine) (k : Z) :
  0 <= k < 256 ->
  (forall j, 0 <= j < k ->
             scan_slot (read_slot hw (flash m) j) = NextSlot) ->
  record_valid (read_slot hw (flash m) k) = true ->
  version (read_slot hw (flash m) k) = 4 ->
  let set := read_slot hw (flash m) k in
  let loaded (m0 : machine) :=
    {| video_settings := peek_words hw set OFF_video_settings VIDMODE_COUNT;
       osdbg_settings := peek32 hw set OFF_osdbg_settings;
       mode_switch_delay := peek32 hw set OFF_mode_switch_delay;
       resbox_enabled := negb (Z.land (flags set) SET_FLAG_RESBOX =? 0);
       audio_volume := Z.land (volume set) 255;
       audio_mute := negb (Z.land (flags set) SET_FLAG_MUTE =? 0);
       ir_codes := peek_words hw set OFF_ir_codes NUM_IRCODES;
       picture_brightness := picture_brightness (live m0);
       picture_contrast := picture_contrast (live m0);
       picture_saturation := picture_saturation (live m0) |} in
  live (settings_load hw set0 m) = loaded m /\
  current_setid (settings_load hw set0 m) = k /\
  VIDEOIF_image_controls (settings_load hw set0 m)
  = VIDEOIF_image_controls m /\
  live (settings_load hw set0 (settings_init hw m))
  = with_picture (loaded m) 0 0 0.
Proof.
  intros Hk Hblank Hvalid Hv4 set loaded. subst loaded set. cbv beta.
  rewrite (settings_load_found hw set0 m k) by assumption.
  split; [|split; [|split]].
  - rewrite live_copy_to_main_vars, Hv4. reflexivity.
  - now rewrite copy_to_main_vars_cursor.
  - now rewrite image_controls_v4.
  - rewrite (settings_load_found hw set0 (settings_init hw m) k)
      by assumption.
    change (flash (settings_init hw m)) with (flash m).
    rewrite live_copy_to_main_vars, Hv4. reflexivity.
Qed.

End Claims.

(** ** Concrete instances *)

Lemma example_settings_ok : settings_ok example_settings.
Proof.
  unfold settings_ok, example_settings, is_u32, is_byte, is_s8; simpl.
  repeat split; try lia; try reflexivity;
    repeat constructor; unfold is_u32; lia.
Qed.

Lemma record_round_trip_witness :
  settings_ok example_settings /\
  live (copy_to_main_vars example_target
          (make_record example_target example_settings) machine_erased)
  = example_settings.
Proof.
  split; [exact example_settings_ok|].
  destruct (record_round_trip example_target example_stack example_settings
              machine_erased [255; 255; 255; 255] example_settings_ok eq_refl)
    as (_ & H & _).
  exact H.
Defined.

(** C1, as stated, fails for the legacy version: decoding a valid V4 record
    into a machine whose picture controls are 9, 8 and 7 does not produce
    the default picture controls. *)
Lemma legacy_decode_keeps_picture_controls :
  settings_ok example_settings /\
  record_valid legacy_slot_image = true /\
  version legacy_slot_image = 4 /\
  live (copy_to_main_vars example_target legacy_slot_image machine_erased)
  = with_picture example_settings 9 8 7 /\
  live (copy_to_main_vars example_target legacy_slot_image machine_erased)
  <> with_picture example_settings 0 0 0.
Proof.
  split; [exact example_settings_ok|].
  split; [vm_compute; reflexivity|].
  split; [vm_compute; reflexivity|].
  split; [vm_compute; reflexivity|].
  intros H. apply (f_equal picture_brightness) in H. vm_compute in H.
  discriminate H.
Qed.

Lemma scan_stops_at_corruption_witness :
  slot_erased example_target (flash machine_torn1_valid2) 0 /\
  record_valid (read_slot example_target (flash machine_torn1_valid2) 1)
  = false /\
  record_valid (read_slot example_target (flash machine_torn1_valid2) 2)
  = true /\
  settings_load example_target example_stack machine_torn1_valid2
  = set_current_setid machine_torn1_valid2 1.
Proof.
  assert (He : slot_erased example_target (flash machine_torn1_valid2) 0).
  { apply slot_erased_program; [|lia|vm_compute; lia].
    apply slot_erased_program; [|lia|vm_compute; lia].
    apply slot_erased_fill. }
  split; [exact He|].
  split; [vm_compute; reflexivity|].
  split; [vm_compute; reflexivity|].
  apply (scan_stops_at_corruption example_target example_stack
           machine_torn1_valid2 He).
  - vm_compute; reflexivity.
  - left. vm_compute. discriminate.
  - vm_compute; reflexivity.
Defined.

(** C2, as stated, fails: with slot 0 erased, slot 1 valid and slot 2
    torn, the ascending scan reaches slot 1 first and loads its record. *)
Lemma scan_finds_valid_slot_before_corruption :
  slot_erased example_target (flash machine_valid1_torn2) 0 /\
  record_valid (read_slot example_target (flash machine_valid1_torn2) 1)
  = true /\
  record_valid (read_slot example_target (flash machine_valid1_torn2) 2)
  = false /\
  version (read_slot example_target (flash machine_valid1_torn2) 2) = 5 /\
  scan_valid example_target example_stack machine_valid1_torn2 = true /\
  current_setid (settings_load example_target example_stack
                   machine_valid1_torn2) = 1 /\
  live (settings_load example_target example_stack machine_valid1_torn2)
  = example_settings.
Proof.
  split.
  { apply slot_erased_program; [|lia|vm_compute; lia].
    apply slot_erased_program; [|lia|vm_compute; lia].
    apply slot_erased_fill. }
  repeat split; vm_compute; reflexivity.
Qed.

Lemma invalid_slot_classification_witness :
  record_valid (read_slot example_target (flash machine_torn0) 0) = false /\
  version (read_slot example_target (flash machine_torn0) 0) <> 255 /\
  settings_load example_target example_stack machine_torn0
  = set_current_setid machine_torn0 0.
Proof.
  split; [vm_compute; reflexivity|].
  assert (Hv : version (read_slot example_target (flash machine_torn0) 0)
               <> 255) by (vm_compute; discriminate).
  split; [exact Hv|].
  destruct (invalid_slot_classification example_target example_stack
              machine_torn0 0) as (_ & _ & H & _).
  - lia.
  - intros j Hj. lia.
  - vm_compute; reflexivity.
  - apply H. left. exact Hv.
Defined.

(** C3, as stated, fails: slot 0 is not a valid record and its byte 2 has
    been written, yet the scan goes on to slot 1 and loads the record
    there, because the version and checksum bytes of slot 0 read 0xFF. *)
Lemma scan_passes_written_slot :
  record_valid (read_slot example_target (flash machine_headless0_valid1) 0)
  = false /\
  peek (read_slot example_target (flash machine_headless0_valid1) 0) 2 = 0 /\
  scan_slot (read_slot example_target (flash machine_headless0_valid1) 0)
  = NextSlot /\
  scan_valid example_target example_stack machine_headless0_valid1 = true /\
  current_setid (settings_load example_target example_stack
                   machine_headless0_valid1) = 1.
Proof. repeat split; vm_compute; reflexivity. Qed.

Lemma single_bit_flip_witness :
  record_valid (make_record example_target example_settings) = true /\
  (record_valid (flip_bit (make_record example_target example_settings) 5 3)
   = true <->
   5%nat = OFF_version /\ 3 = 0 /\
   u8 (peek (make_record example_target example_settings) OFF_brightness
       + peek (make_record example_target example_settings) OFF_contrast
       + peek (make_record example_target example_settings) OFF_saturation)
   = 255).
Proof.
  split; [vm_compute; reflexivity|].
  apply single_bit_flip_detected.
  - exact (make_record_ok example_target example_settings).
  - vm_compute; reflexivity.
  - vm_compute; lia.
  - lia.
Defined.

(** C4, as stated, fails: the record of the example settings, whose
    picture bytes sum to 255, stays valid when bit 0 of its version byte is
    inverted; it then reads as a V4 record. *)
Lemma version_bit_flip_undetected :
  record_valid (make_record example_target example_settings) = true /\
  (OFF_version
   < Z.to_nat (record_size
                 (version (make_record example_target example_settings))))%nat
  /\
  flip_bit (make_record example_target example_settings) OFF_version 0
  <> make_record example_target example_settings /\
  record_valid
    (flip_bit (make_record example_target example_settings) OFF_version 0)
  = true.
Proof.
  split; [vm_compute; reflexivity|].
  split; [vm_compute; lia|].
  split; [|vm_compute; reflexivity].
  intros H. apply (f_equal version) in H. vm_compute in H. discriminate H.
Qed.

Lemma legacy_record_migration_witness :
  record_valid (read_slot example_target (flash machine_legacy0) 0) = true /\
  version (read_slot example_target (flash machine_legacy0) 0) = 4 /\
  current_setid (settings_load example_target example_stack machine_legacy0)
  = 0.
Proof.
  split; [vm_compute; reflexivity|].
  split; [vm_compute; reflexivity|].
  destruct (legacy_record_migration example_target example_stack
              machine_legacy0 0) as (_ & H & _).
  - lia.
  - intros j Hj. lia.
  - vm_compute; reflexivity.
  - vm_compute; reflexivity.
  - exact H.
Defined.

(** C5, as stated, fails: after loading the valid V4 record of slot 0 the
    picture controls are still 9, 8 and 7, not the defaults 0. *)
Lemma legacy_load_keeps_picture_controls :
  record_valid (read_slot example_target (flash machine_legacy0) 0) = true /\
  version (read_slot example_target (flash machine_legacy0) 0) = 4 /\
  scan_valid example_target example_stack machine_legacy0 = true /\
  picture_brightness
    (live (settings_load example_target example_stack machine_legacy0)) = 9 /\
  picture_contrast
    (live (settings_load example_target example_stack machine_legacy0)) = 8 /\
  picture_saturation
    (live (settings_load example_target example_stack machine_legacy0)) = 7.
Proof. repeat split; vm_compute; reflexivity. Qed.

Lemma save_exhaustion_witness :
  current_setid machine_erased = 0 /\
  current_setid (settings_save example_target machine_erased) = 255 /\
  erase_count (settings_save example_target machine_erased) = 1%nat.
Proof.
  split; [reflexivity|].
  destruct (save_exhaustion_triggers_erase example_target machine_erased
              eq_refl) as (Hlog & Hc & _).
  split; [exact Hc|].
  unfold erase_count. rewrite Hlog. reflexivity.
Defined.

Lemma wear_amortization_witness :
  sector_erased example_target (flash machine_erased) /\
  length (repeat example_settings 256) = 256%nat /\
  current_setid (settings_load example_target example_stack machine_erased)
  = 256 /\
  erase_count
    (run_saves example_target (repeat example_settings 256)
       (settings_load example_target example_stack machine_erased))
  = erase_count
      (settings_load example_target example_stack machine_erased).
Proof.
  assert (He : sector_erased example_target (flash machine_erased)).
  { intros i Hi. apply slot_erased_fill. }
  split; [exact He|]. split; [reflexivity|].
  destruct (wear_amortization example_target example_stack machine_erased
              (repeat example_settings 256) example_settings He eq_refl)
    as (Hc & Hn & _).
  split; [exact Hc|].
  specialize (Hn 256%nat (le_n 256)).
  rewrite firstn_all2 in Hn by (rewrite repeat_length; lia).
  exact Hn.
Defined.

Lemma newest_wins_witness :
  record_valid (read_slot example_target (flash machine_valid3_valid5) 3)
  = true /\
  record_valid (read_slot example_target (flash machine_valid3_valid5) 5)
  = true /\
  current_setid (settings_load example_target example_stack
                   machine_valid3_valid5) = 3.
Proof.
  split; [vm_compute; reflexivity|].
  split; [vm_compute; reflexivity|].
  destruct (newest_wins example_target example_stack machine_valid3_valid5)
    as (_ & _ & H).
  - intros j Hj.
    apply slot_erased_program; [|lia|vm_compute; lia].
    apply slot_erased_program; [|lia|vm_compute; lia].
    apply slot_erased_fill.
  - vm_compute; reflexivity.
  - vm_compute; reflexivity.
  - exact H.
Defined.

Lemma load_atomic_on_failure_witness :
  scan_valid example_target example_stack machine_torn0 = false /\
  exists k, 0 <= k <= 256 /\
            settings_load example_target example_stack machine_torn0
            = set_current_setid machine_torn0 k.
Proof.
  split; [vm_compute; reflexivity|].
  apply load_atomic_on_failure. vm_compute; reflexivity.
Defined.

Lemma corrupt_slot0_witness :
  record_valid (read_slot example_target (flash machine_torn0) 0) = false /\
  checksum (read_slot example_target (flash machine_torn0) 0) <> 255 /\
  current_setid
    (settings_save example_target
       (settings_load example_target example_stack machine_torn0)) = 255.
Proof.
  split; [vm_compute; reflexivity|].
  assert (Hc : checksum (read_slot example_target (flash machine_torn0) 0)
               <> 255) by (vm_compute; discriminate).
  split; [exact Hc|].
  destruct (corrupt_slot0_forces_erase example_target example_stack
              machine_torn0) as (_ & _ & H & _).
  - vm_compute; reflexivity.
  - right. exact Hc.
  - exact H.
Defined.

(** * Further properties of the store *)

Section StoreProperties.

Variable hw : portdefs.
Variable set0 : buffer.

(** The scan on any flash: where it ends and why. *)
Lemma scan_spec (f : Z -> Z) (n : nat) (i : Z) (set : buffer) :
  exists k,
    i <= k <= i + Z.of_nat n /\
    (forall j, i <= j < k -> scan_slot (read_slot hw f j) = NextSlot) /\
    ((k < i + Z.of_nat n /\
      scan_slot (read_slot hw f k) = BreakValid /\
      scan hw f n i set = (true, k, read_slot hw f k))
     \/
     (k < i + Z.of_nat n /\
      scan_slot (read_slot hw f k) = BreakInvalid /\
      scan hw f n i set = (false, k, read_slot hw f k))
     \/
     (k = i + Z.of_nat n /\ fst (scan hw f n i set) = (false, k))).
Proof.
  revert i set. induction n as [|n IH]; intros i set.
  - exists i. split; [simpl; lia|]. split; [intros; lia|].
    right. right. split; [simpl; lia|reflexivity].
  - cbn [scan]. destruct (scan_slot (read_slot hw f i)) eqn:Hs.
    + exists i. split; [lia|]. split; [intros; lia|]. left. split; [lia|auto].
    + exists i. split; [lia|]. split; [intros; lia|]. right. left.
      split; [lia|auto].
    + destruct (IH (i + 1) (read_slot hw f i)) as (k & Hk & Hblank & Hend).
      exists k. split; [lia|]. split.
      * intros j Hj. destruct (Z.eq_dec j i) as [->|]; [exact Hs|].
        apply Hblank. lia.
      * destruct Hend as [(H1 & H2 & H3)|[(H1 & H2 & H3)|(H1 & H2)]].
        -- left. split; [lia|auto].
        -- right. left. split; [lia|auto].
        -- right. right. split; [lia|exact H2].
Qed.

(** X1: on any flash contents [settings_load] ends in one of two ways.  It
    sets the cursor to the lowest slot [k] whose version or checksum byte is
    not 0xFF, or to 256 when there is none; it copies a record to the main
    variables only when slot [k] passes the version and checksum test, and
    otherwise changes nothing but the cursor. *)
Theorem settings_load_cases (m : machine) :
  exists k,
    0 <= k <= 256 /\
    current_setid (settings_load hw set0 m) = k /\
    (forall j, 0 <= j < k ->
               version (read_slot hw (flash m) j) = 255 /\
               checksum (read_slot hw (flash m) j) = 255) /\
    ((k < 256 /\
      record_valid (read_slot hw (flash m) k) = true /\
      settings_load hw set0 m
      = copy_to_main_vars hw (read_slot hw (flash m) k)
          (set_current_setid m k))
     \/
     ((k = 256 \/
       (record_valid (read_slot hw (flash m) k) = false /\
        (version (read_slot hw (flash m) k) <> 255
         \/ checksum (read_slot hw (flash m) k) <> 255))) /\
      settings_load hw set0 m = set_current_setid m k)).
Proof.
  destruct (scan_spec (flash m) 256 0 set0) as (k & Hk & Hblank & Hend).
  exists k. split; [simpl in Hk; lia|].
  assert (Hu : u16 k = k) by (unfold u16; apply Z.mod_small; simpl in Hk; lia).
  assert (Hhdr : forall j, 0 <= j < k ->
                           version (read_slot hw (flash m) j) = 255 /\
                           checksum (read_slot hw (flash m) j) = 255).
  { intros j Hj. now apply scan_slot_next, Hblank. }
  unfold settings_load.
  destruct Hend as [(H1 & H2 & H3)|[(H1 & H2 & H3)|(H1 & H2)]].
  - rewrite H3, Hu. split; [apply copy_to_main_vars_cursor|].
    split; [exact Hhdr|]. left. split; [simpl in H1; lia|].
    split; [now apply scan_slot_valid|reflexivity].
  - rewrite H3, Hu. split; [reflexivity|]. split; [exact Hhdr|]. right.
    split; [|reflexivity]. right. now apply scan_slot_break.
  - destruct (scan hw (flash m) 256 0 set0) as [[valid i] set].
    simpl in H2. injection H2 as -> ->. rewrite Hu.
    split; [reflexivity|]. split; [exact Hhdr|]. right.
    split; [|reflexivity]. left. simpl in H1. lia.
Qed.

(** The scan reads only the first bytes of each slot. *)
Lemma read_slot_ext (f g : Z -> Z) (i : Z) :
  0 <= i < 256 -> same_records hw f g ->
  read_slot hw f i = read_slot hw g i.
Proof.
  intros Hi Hfg. unfold read_slot, spiflash_read_block.
  apply map_ext_in. intros k Hk. apply in_seq in Hk.
  rewrite <- !Z.add_assoc. rewrite !Z.add_assoc. apply Hfg; lia.
Qed.

Lemma scan_ext (f g : Z -> Z) (n : nat) (i : Z) (set : buffer) :
  same_records hw f g -> 0 <= i -> i + Z.of_nat n <= 256 ->
  scan hw f n i set = scan hw g n i set.
Proof.
  intros Hfg. revert i set. induction n as [|n IH]; intros i set H0 Hn.
  - reflexivity.
  - cbn [scan]. rewrite (read_slot_ext f g i) by (auto; lia).
    destruct (scan_slot (read_slot hw g i)); auto. apply IH; lia.
Qed.

(** X2: [settings_load] looks at nothing but the first 64 bytes of each of
    the 256 slots: two machines with the same live settings whose flash
    contents agree on those bytes end with the same live settings and the
    same cursor, whatever the remaining 192 bytes of each slot hold. *)
Theorem settings_load_reads_records_only (m1 m2 : machine) :
  live m1 = live m2 ->
  same_records hw (flash m1) (flash m2) ->
  live (settings_load hw set0 m1) = live (settings_load hw set0 m2) /\
  current_setid (settings_load hw set0 m1)
  = current_setid (settings_load hw set0 m2).
Proof.
  intros Hlive Hfg. unfold settings_load.
  rewrite (scan_ext (flash m1) (flash m2)) by (auto; simpl; lia).
  destruct (scan hw (flash m2) 256 0 set0) as [[valid i] set].
  destruct valid.
  - rewrite !copy_to_main_vars_cursor. split; [|reflexivity].
    rewrite !live_copy_to_main_vars. cbn [live set_current_setid].
    now rewrite Hlive.
  - split; [exact Hlive|reflexivity].
Qed.

End StoreProperties.

Section SaveProperties.

Variable hw : portdefs.
Variable set0 : buffer.

Lemma saved_record_frame (s : settings) :
  version (make_record hw s) = 5 /\ peek (make_record hw s) 63 = 0.
Proof.
  destruct (create_record_ok hw s) as [Hlen _].
  destruct (create_record_frame hw s) as [Hver Hpad].
  unfold make_record, calculate_checksum, poke, version, OFF_version,
    OFF_checksum, sizeof_storedsettings_t in *.
  rewrite !peek_upd_other by lia. now split.
Qed.

(** X3: the record [settings_save] builds is accepted by [settings_load]
    for every value of the live variables: it has 64 bytes, version byte 5
    and a zero padding byte, so the sum over 63 bytes that [settings_save]
    stores equals the sum over the 62 bytes [settings_load] adds up. *)
Theorem saved_record_always_valid (s : settings) :
  bytes_ok sizeof_storedsettings_t (make_record hw s) /\
  version (make_record hw s) = SETTINGS_VERSION /\
  peek (make_record hw s) 63 = 0 /\
  checksum (make_record hw s)
  = checksum_loop (make_record hw s) 1
      (Z.to_nat (record_size (version (make_record hw s))) - 1) 0 /\
  record_valid (make_record hw s) = true.
Proof.
  pose proof (make_record_valid hw s) as Hvalid.
  pose proof (make_record_ok hw s) as Hok.
  destruct (create_record_ok hw s) as [Hlen _].
  destruct (create_record_frame hw s) as [Hver Hpad].
  assert (Hv : version (make_record hw s) = 5).
  { unfold make_record, calculate_checksum, poke, version, OFF_version,
      OFF_checksum. rewrite peek_upd_other by lia. exact Hver. }
  split; [exact Hok|]. split; [exact Hv|]. split.
  - unfold make_record, calculate_checksum, poke, OFF_checksum.
    rewrite peek_upd_other by lia. exact Hpad.
  - split; [|exact Hvalid].
    apply record_valid_iff in Hvalid. destruct Hvalid as [[H4 _]|[_ Hsum]].
    + rewrite Hv in H4. discriminate H4.
    + rewrite Hv. change (Z.to_nat (record_size 5) - 1)%nat with 62%nat.
      rewrite checksum_loop_eq. symmetry. exact Hsum.
Qed.


Lemma copy_to_main_vars_flash (set : buffer) (m : machine) :
  flash (copy_to_main_vars hw set m) = flash m.
Proof.
  unfold copy_to_main_vars. destruct (5 <=? version set); reflexivity.
Qed.

Lemma settings_save_keeps_store_aux (m : machine) :
  store_inv hw m ->
  store_inv hw (settings_save hw m) /\
  current_setid (settings_save hw m) < 256 /\
  read_slot hw (flash (settings_save hw m))
    (current_setid (settings_save hw m))
  = make_record hw (live m).
Proof.
  intros [Hc Herased].
  destruct (Z.eq_dec (current_setid m) 0) as [H0|Hne].
  - destruct (settings_save_at_zero hw m H0) as (H1 & _ & _ & H4 & H5 & _).
    rewrite H1. split; [|split; [lia|exact H4]].
    split; [rewrite H1; lia|]. rewrite H1. intros j Hj k Hk.
    apply H5; unfold sizeof_storedsettings_t; lia.
  - destruct (settings_save_no_erase hw m) as [H1 _]; [lia|].
    destruct (settings_save_at_cursor hw m) as [H2 H3];
      [lia|apply Herased; lia|].
    rewrite H1. split; [|split; [lia|exact H3]].
    split; [rewrite H1; lia|]. rewrite H1, H2. intros j Hj.
    apply slot_erased_program; [apply Herased; lia|lia|].
    destruct (make_record_ok hw (live m)) as [Hlen _]. rewrite Hlen.
    unfold sizeof_storedsettings_t. lia.
Qed.

(** X5: [settings_save] keeps the log in order.  When the cursor is in
    0..256 and every slot below it is erased, the same holds after the
    save, and the slot at the new cursor reads back exactly the record that
    was built, which is valid. *)
Theorem settings_save_keeps_store (m : machine) :
  store_inv hw m ->
  store_inv hw (settings_save hw m) /\
  current_setid (settings_save hw m) < 256 /\
  read_slot hw (flash (settings_save hw m)) (current_setid (settings_save hw m))
  = make_record hw (live m) /\
  record_valid
    (read_slot hw (flash (settings_save hw m))
       (current_setid (settings_save hw m))) = true.
Proof.
  intros Hinv.
  destruct (settings_save_keeps_store_aux m Hinv) as (H1 & H2 & H3).
  split; [exact H1|]. split; [exact H2|]. split; [exact H3|].
  rewrite H3. apply make_record_valid.
Qed.

(** X6: a reboot after a save finds the cursor where the save left it.
    With the log in order, [settings_load] run on the machine that
    [settings_save] leaves recomputes the same cursor and keeps the log in
    order, whatever the live variables hold at that time. *)
Theorem reboot_recovers_cursor (m : machine) (s' : settings) :
  store_inv hw m ->
  current_setid (settings_load hw set0 (set_live (settings_save hw m) s'))
  = current_setid (settings_save hw m) /\
  store_inv hw (settings_load hw set0 (set_live (settings_save hw m) s')).
Proof.
  intros Hinv.
  destruct (settings_save_keeps_store_aux m Hinv) as ([Hc Herased] & Hlt & Hrd).
  assert (Hload :
    settings_load hw set0 (set_live (settings_save hw m) s')
    = copy_to_main_vars hw (make_record hw (live m))
        (set_current_setid (set_live (settings_save hw m) s')
           (current_setid (settings_save hw m)))).
  { rewrite (settings_load_found hw set0 _ (current_setid (settings_save hw m))).
    - cbn [flash set_live]. now rewrite Hrd.
    - lia.
    - intros j Hj. apply scan_slot_erased. cbn [flash set_live].
      now apply Herased.
    - cbn [flash set_live]. rewrite Hrd. apply make_record_valid. }
  rewrite Hload. rewrite copy_to_main_vars_cursor. split; [reflexivity|].
  split.
  - rewrite copy_to_main_vars_cursor. exact Hc.
  - rewrite copy_to_main_vars_cursor, copy_to_main_vars_flash. exact Herased.
Qed.

End SaveProperties.

Section LogProperties.

Variable hw : portdefs.
Variable set0 : buffer.

Lemma run_saves_app (l1 l2 : list settings) (m : machine) :
  run_saves hw (l1 ++ l2) m = run_saves hw l2 (run_saves hw l1 m).
Proof.
  revert m. induction l1 as [|s l1 IH]; intros m; simpl; auto.
Qed.

Lemma store_inv_set_live (m : machine) (s : settings) :
  store_inv hw m -> store_inv hw (set_live m s).
Proof. intros H. exact H. Qed.

Lemma run_saves_store_inv (l : list settings) (m : machine) :
  store_inv hw m -> store_inv hw (run_saves hw l m).
Proof.
  revert m. induction l as [|s l IH]; intros m Hinv; simpl; auto.
  apply IH. apply settings_save_keeps_store_aux.
  now apply store_inv_set_live.
Qed.

(** X7: the newest record wins after any number of saves.  Starting with
    the log in order, after any sequence of saves, across any number of
    sector erases, a load restores the settings of the last save over
    whatever the live variables hold; only the settings of that last save
    need to fit their C types. *)
Theorem last_save_wins (m : machine) (l : list settings) (s s' : settings) :
  store_inv hw m ->
  settings_ok s ->
  live (settings_load hw set0 (set_live (run_saves hw (l ++ [s]) m) s')) = s.
Proof.
  intros Hinv Hok. rewrite run_saves_app. cbn [run_saves].
  destruct (run_saves_store_inv l m Hinv) as [Hc Herased].
  now rewrite (save_then_load hw set0 (set_live (run_saves hw l m) s) s').
Qed.

Lemma settings_save_erases_at_zero (m : machine) :
  current_setid m = 0 ->
  current_setid (settings_save hw m) = 255 /\
  erase_count (settings_save hw m) = S (erase_count m).
Proof.
  intros H0.
  destruct (settings_save_at_zero hw m H0) as (Hc & _ & Hlog & _).
  split; [exact Hc|]. unfold erase_count. rewrite Hlog.
  rewrite filter_app, length_app. simpl. lia.
Qed.

(** X8: the erase count of any run of saves.  From a cursor [c] in 0..256,
    [n] consecutive saves perform exactly [(n + 255 - c) / 256] sector
    erases (none while [n <= c], then one every 256 saves), and the cursor
    ends at [c + 256 * erases - n]. *)
Theorem erase_count_after_saves (m : machine) (l : list settings) (c : nat) :
  current_setid m = Z.of_nat c ->
  (c <= 256)%nat ->
  erase_count (run_saves hw l m)
  = (erase_count m + (length l + 255 - c) / 256)%nat /\
  current_setid (run_saves hw l m)
  = Z.of_nat c + 256 * Z.of_nat ((length l + 255 - c) / 256)
    - Z.of_nat (length l).
Proof.
  revert m c. induction l as [|s l IH]; intros m c Hc Hle.
  - cbn [run_saves length].
    replace ((0 + 255 - c) / 256)%nat with 0%nat
      by (symmetry; apply Nat.div_small; lia).
    split; lia.
  - cbn [run_saves length]. destruct c as [|c].
    + destruct (settings_save_erases_at_zero (set_live m s)) as [H1 H2];
        [exact Hc|].
      destruct (IH (settings_save hw (set_live m s)) 255%nat) as [H3 H4];
        [rewrite H1; reflexivity|lia|].
      rewrite H3, H4, H2.
      change (erase_count (set_live m s)) with (erase_count m).
      replace (S (length l) + 255 - 0)%nat with (length l + 1 * 256)%nat
        by lia.
      rewrite Nat.div_add by lia.
      replace (length l + 255 - 255)%nat with (length l) by lia.
      split; lia.
    + destruct (settings_save_no_erase hw (set_live m s)) as [H1 H2].
      { cbn [current_setid set_live]. lia. }
      destruct (IH (settings_save hw (set_live m s)) c) as [H3 H4].
      { rewrite H1. cbn [current_setid set_live]. lia. }
      { lia. }
      rewrite H3, H4, H2.
      change (erase_count (set_live m s)) with (erase_count m).
      replace (S (length l) + 255 - S c)%nat with (length l + 255 - c)%nat
        by lia.
      split; lia.
Qed.

(** X9: a slot that [settings_save] has begun to program is never taken
    for an empty one.  When at least the first two bytes of a record have
    been programmed into an erased slot, the version byte of the slot reads
    5, so the scan does not pass over it. *)
Theorem programmed_slot_never_empty (f : Z -> Z) (i : Z) (s : settings)
        (n : nat) :
  slot_erased hw f i ->
  (2 <= n)%nat ->
  let f' := spiflash_write_page f (SETTINGS_OFFSET hw + 256 * i)
              (firstn n (make_record hw s)) in
  version (read_slot hw f' i) = 5 /\
  scan_slot (read_slot hw f' i) <> NextSlot.
Proof.
  intros Herased Hn f'.
  assert (Hv : version (read_slot hw f' i) = 5).
  { unfold version. rewrite read_slot_peek
      by (unfold OFF_version, sizeof_storedsettings_t; lia).
    subst f'. unfold spiflash_write_page.
    destruct (make_record_ok hw s) as [Hlen _].
    assert (Hver : nth 1 (make_record hw s) 255 = 5).
    { destruct (saved_record_frame hw s) as [H _].
      unfold version, peek, OFF_version in H.
      rewrite (nth_indep _ 255 0) by (rewrite Hlen; unfold sizeof_storedsettings_t; lia).
      exact H. }
    assert (Hl : (2 <= length (firstn n (make_record hw s)))%nat).
    { rewrite length_firstn, Hlen. unfold sizeof_storedsettings_t. lia. }
    unfold OFF_version.
    replace ((SETTINGS_OFFSET hw + 256 * i
              <=? SETTINGS_OFFSET hw + 256 * i + Z.of_nat 1)
             && (SETTINGS_OFFSET hw + 256 * i + Z.of_nat 1
                 <? SETTINGS_OFFSET hw + 256 * i
                    + Z.of_nat (length (firstn n (make_record hw s)))))
      with true
      by (symmetry; apply andb_true_iff; split;
          [apply Z.leb_le|apply Z.ltb_lt]; lia).
    rewrite (Herased (Z.of_nat 1)) by lia.
    replace (Z.to_nat (SETTINGS_OFFSET hw + 256 * i + Z.of_nat 1
                       - (SETTINGS_OFFSET hw + 256 * i))) with 1%nat by lia.
    destruct n as [|[|n]]; try lia.
    destruct (make_record hw s) as [|b0 [|b1 t]];
      unfold sizeof_storedsettings_t in Hlen; try discriminate Hlen.
    cbn [firstn nth]. cbn [nth] in Hver. rewrite Hver. reflexivity. }
  split; [exact Hv|]. intros Hnext. apply scan_slot_next in Hnext.
  destruct Hnext as [H _]. rewrite Hv in H. discriminate H.
Qed.

End LogProperties.

(** * Further properties of the checksum *)

Section ChecksumProperties.

Lemma record_size_cases (set : buffer) (p : nat) :
  (p < Z.to_nat (record_size (version set)))%nat ->
  (version set = 4 /\ (p < 60)%nat) \/ (version set = 5 /\ (p < 63)%nat).
Proof.
  unfold record_size, SETTINGS_SIZE_V4, SETTINGS_SIZE_V5.
  destruct (Z.eqb_spec (version set) 4); [intros; left; split; [auto|lia]|].
  destruct (Z.eqb_spec (version set) 5); [intros; right; split; [auto|lia]|].
  simpl. lia.
Qed.

(** X10: the checksum detects every change of a single byte other than the
    version byte: replacing the checksum byte or any byte after the version
    byte, within the declared size of a valid record, by a different byte
    value makes the record invalid. *)
Theorem single_byte_change_detected (set : buffer) (p : nat) (b : Z) :
  bytes_ok sizeof_storedsettings_t set ->
  record_valid set = true ->
  (p < Z.to_nat (record_size (version set)))%nat ->
  p <> OFF_version ->
  is_byte b ->
  b <> peek set p ->
  record_valid (upd set p b) = false.
Proof.
  intros [Hlen Hall] Hvalid Hp Hnv Hb Hne.
  assert (Hold : is_byte (peek set p)).
  { apply is_byte_nth; [assumption|unfold is_byte; lia]. }
  apply not_true_is_false. intros H.
  apply record_valid_iff in H. apply record_valid_iff in Hvalid.
  pose proof (record_size_cases set p Hp) as Hsize.
  unfold version, checksum, OFF_version, OFF_checksum,
    sizeof_storedsettings_t, is_byte in *.
  destruct p as [|p].
  - rewrite peek_upd_same in H by lia. rewrite peek_upd_other in H by lia.
    rewrite !bytes_total_upd_outside in H by lia.
    destruct Hvalid as [[Hv Hsum]|[Hv Hsum]];
      destruct H as [[Hv' H]|[Hv' H]]; lia.
  - rewrite !peek_upd_other in H by lia.
    destruct Hvalid as [[Hv Hsum]|[Hv Hsum]];
      destruct H as [[Hv' H]|[Hv' H]]; try lia;
      rewrite bytes_total_upd_inside in H by lia;
      rewrite <- Hsum in H; unfold u8 in H;
      clear - H Hb Hold Hne; Z.div_mod_to_equations; lia.
Qed.

(** X11: the checksum is blind to the order of the bytes: exchanging any
    two bytes after the version byte, within the declared size of a valid
    record, leaves the record valid. *)
Theorem byte_transposition_undetected (set : buffer) (p q : nat) :
  bytes_ok sizeof_storedsettings_t set ->
  record_valid set = true ->
  (2 <= p < Z.to_nat (record_size (version set)))%nat ->
  (2 <= q < Z.to_nat (record_size (version set)))%nat ->
  record_valid (swap_bytes set p q) = true.
Proof.
  intros [Hlen Hall] Hvalid [Hp2 Hp] [Hq2 Hq].
  destruct (Nat.eq_dec p q) as [->|Hpq].
  { unfold swap_bytes.
    assert (Hid : upd (upd set q (peek set q)) q (peek set q) = set).
    { apply (nth_ext _ _ 0 0); [now rewrite !length_upd|].
      intros k Hk. rewrite !length_upd in Hk.
      destruct (Nat.eq_dec q k) as [->|Hne].
      - rewrite nth_upd_same by (rewrite length_upd; lia). reflexivity.
      - rewrite !nth_upd_other by assumption. reflexivity. }
    now rewrite Hid. }
  assert (Hp63 : (p < 63)%nat)
    by (destruct (record_size_cases set p Hp) as [[_ ?]|[_ ?]]; lia).
  assert (Hq63 : (q < 63)%nat)
    by (destruct (record_size_cases set q Hq) as [[_ ?]|[_ ?]]; lia).
  assert (Htot : forall count, (p < 1 + count)%nat -> (q < 1 + count)%nat ->
                 bytes_total (swap_bytes set p q) 1 count
                 = bytes_total set 1 count).
  { intros count H1 H2. unfold swap_bytes, sizeof_storedsettings_t in *.
    rewrite bytes_total_upd_inside by (rewrite ?length_upd; lia).
    rewrite bytes_total_upd_inside by lia.
    rewrite peek_upd_other by assumption. lia. }
  assert (Hhdr : version (swap_bytes set p q) = version set /\
                 checksum (swap_bytes set p q) = checksum set).
  { unfold swap_bytes, version, checksum, OFF_version, OFF_checksum.
    rewrite !peek_upd_other by lia. now split. }
  destruct Hhdr as [Hv Hc].
  apply record_valid_iff. apply record_valid_iff in Hvalid.
  rewrite Hv, Hc.
  destruct (record_size_cases set p Hp) as [[Hv4 Hs]|[Hv5 Hs]];
    destruct (record_size_cases set q Hq) as [[Hv4' Hs']|[Hv5' Hs']];
    try lia;
    destruct Hvalid as [[Hx Hsum]|[Hx Hsum]]; try lia.
  - left. split; [assumption|]. now rewrite Htot by lia.
  - right. split; [assumption|]. now rewrite Htot by lia.
Qed.

End ChecksumProperties.

(** * Properties of [set_all_modes] *)

Section GlobalFlags.

Lemma testbit_u32 (z i : Z) :
  0 <= i -> Z.testbit (u32 z) i = (i <? 32) && Z.testbit z i.
Proof.
  intros Hi. unfold u32. change 4294967296 with (2 ^ 32).
  destruct (Z.ltb_spec i 32).
  - rewrite Z.mod_pow2_bits_low by lia. reflexivity.
  - rewrite Z.mod_pow2_bits_high by lia. reflexivity.
Qed.

Lemma testbit_is_u32 (z i : Z) :
  is_u32 z -> 0 <= i -> Z.testbit z i = (i <? 32) && Z.testbit z i.
Proof.
  intros Hz Hi. rewrite <- (testbit_u32 z i Hi).
  unfold u32. unfold is_u32 in Hz. now rewrite Z.mod_small.
Qed.

(** Bitwise goals over [u32], [Z.lor], [Z.land] and [Z.lnot]. *)
Ltac push_testbit :=
  repeat first
    [ rewrite Z.land_spec | rewrite Z.lor_spec
    | rewrite testbit_u32 by assumption
    | rewrite Z.lnot_spec by assumption
    | rewrite Z.bits_0 ].

Ltac case_bits i :=
  destruct (i <? 32);
  repeat match goal with
         | |- context [Z.testbit ?a i] => destruct (Z.testbit a i)
         end;
  reflexivity.

Ltac bits :=
  apply Z.bits_inj'; intros i Hi; push_testbit; case_bits i.

(** The same, given that [g] fits in 32 bits. *)
Ltac bits_with g Hg :=
  apply Z.bits_inj'; intros i Hi; push_testbit;
  rewrite (testbit_is_u32 g i Hg Hi); case_bits i.

(** X12: [set_all_modes (flag, true)] sets every bit of the flag in the
    global word and in the settings register, whatever the per-mode word of
    the current mode holds, and leaves all other bits of the global word,
    the live settings, the cursor and the flash as they were. *)
Theorem set_all_modes_enable (flag : Z) (m : machine) :
  Z.land (video_settings_global (set_all_modes flag true m)) flag = flag /\
  Z.land (VIDEOIF_settings (set_all_modes flag true m)) flag = flag /\
  Z.land (video_settings_global (set_all_modes flag true m)) (Z.lnot flag)
  = Z.land (video_settings_global m) (Z.lnot flag) /\
  live (set_all_modes flag true m) = live m /\
  current_setid (set_all_modes flag true m) = current_setid m /\
  (forall a, flash (set_all_modes flag true m) a = flash m a).
Proof.
  cbn [set_all_modes video_settings_global VIDEOIF_settings live
       current_setid flash].
  repeat split; bits.
Qed.

(** X13: [set_all_modes (flag, false)] clears every bit of the flag in the
    global word and keeps the other bits of a 32-bit global word; in the
    settings register a bit of the flag stays set exactly when the per-mode
    word of the current mode has it, so a globally disabled flag still
    reaches the hardware through the per-mode word. *)
Theorem set_all_modes_disable (flag : Z) (m : machine) :
  is_u32 (video_settings_global m) ->
  Z.land (video_settings_global (set_all_modes flag false m)) flag = 0 /\
  Z.land (video_settings_global (set_all_modes flag false m)) (Z.lnot flag)
  = Z.land (video_settings_global m) (Z.lnot flag) /\
  Z.land (VIDEOIF_settings (set_all_modes flag false m)) flag
  = Z.land (nth (mode_index (current_videomode m)) (video_settings (live m)) 0)
           flag /\
  live (set_all_modes flag false m) = live m.
Proof.
  intros Hg.
  cbn [set_all_modes video_settings_global VIDEOIF_settings live].
  split; [bits|]. split; [|split; [bits|reflexivity]].
  bits_with (video_settings_global m) Hg.
Qed.

Lemma set_all_modes_eq (flag : Z) (st : bool) (m1 m2 : machine) :
  live m1 = live m2 -> current_videomode m1 = current_videomode m2 ->
  current_setid m1 = current_setid m2 -> VIDEOIF_flags m1 = VIDEOIF_flags m2 ->
  VIDEOIF_osd_bg m1 = VIDEOIF_osd_bg m2 ->
  VIDEOIF_audio_volume m1 = VIDEOIF_audio_volume m2 ->
  VIDEOIF_image_controls m1 = VIDEOIF_image_controls m2 ->
  flash m1 = flash m2 -> spi_log m1 = spi_log m2 ->
  (if st then Z.lor (video_settings_global m1) flag
   else Z.land (video_settings_global m1) (u32 (Z.lnot flag)))
  = (if st then Z.lor (video_settings_global m2) flag
     else Z.land (video_settings_global m2) (u32 (Z.lnot flag))) ->
  set_all_modes flag st m1 = set_all_modes flag st m2.
Proof.
  intros H1 H2 H3 H4 H5 H6 H7 H8 H9 H10. unfold set_all_modes.
  rewrite H1, H2, H3, H4, H5, H6, H7, H8, H9, H10. reflexivity.
Qed.

(** X14: how calls of [set_all_modes] compose for one flag, with a 32-bit
    global word: the last call decides.  Enabling or disabling twice is the
    same as once, and an enable followed by a disable, or a disable
    followed by an enable, equals the last call alone. *)
Theorem set_all_modes_last_call_wins (flag : Z) (st1 st2 : bool) (m : machine) :
  is_u32 (video_settings_global m) ->
  set_all_modes flag st2 (set_all_modes flag st1 m) = set_all_modes flag st2 m.
Proof.
  intros Hg. apply set_all_modes_eq; try reflexivity.
  cbn [set_all_modes video_settings_global].
  destruct st1, st2; try bits; bits_with (video_settings_global m) Hg.
Qed.

End GlobalFlags.

(** * Properties of [detect_inputmode] *)

Section InputMode.

Variable hw : portdefs.

(** The masked flags as the union of the bits that are set. *)
Lemma masked_flags (fl a b c : Z) :
  0 <= a -> 0 <= b -> 0 <= c ->
  Z.land fl (Z.lor (Z.lor (2 ^ a) (2 ^ b)) (2 ^ c))
  = flag_union a b c (Z.testbit fl a) (Z.testbit fl b) (Z.testbit fl c).
Proof.
  intros Ha Hb Hc. unfold flag_union. apply Z.bits_inj'. intros n Hn.
  rewrite Z.land_spec, !Z.lor_spec.
  assert (Hbit : forall t, 0 <= t ->
            Z.testbit (if Z.testbit fl t then 2 ^ t else 0) n
            = Z.testbit fl n && Z.testbit (2 ^ t) n).
  { intros t Ht. rewrite Z.pow2_bits_eqb by assumption.
    destruct (Z.eqb_spec t n) as [->|Hne].
    - destruct (Z.testbit fl n); [|now rewrite Z.bits_0].
      rewrite Z.pow2_bits_eqb by assumption. now rewrite Z.eqb_refl.
    - rewrite andb_false_r. destruct (Z.testbit fl t); [|apply Z.bits_0].
      rewrite Z.pow2_bits_eqb by assumption. now apply Z.eqb_neq. }
  rewrite !Hbit by assumption.
  destruct (Z.testbit fl n), (Z.testbit (2 ^ a) n), (Z.testbit (2 ^ b) n),
    (Z.testbit (2 ^ c) n); reflexivity.
Qed.

(** The bits at [a], [b] and [c] of a union of the three flags. *)
Lemma union_bits (a b c : Z) :
  0 <= a -> 0 <= b -> 0 <= c -> a <> b -> a <> c -> b <> c ->
  forall (u v w : bool),
    Z.testbit (flag_union a b c u v w) a = u /\
    Z.testbit (flag_union a b c u v w) b = v /\
    Z.testbit (flag_union a b c u v w) c = w.
Proof.
  intros Ha Hb Hc Hab Hac Hbc u v w. unfold flag_union.
  rewrite !Z.lor_spec.
  assert (Hp : forall s t, 0 <= s -> 0 <= t -> forall q : bool,
            Z.testbit (if q then 2 ^ s else 0) t = q && (s =? t)).
  { intros s t Hs Ht q. destruct q; [|apply Z.bits_0].
    now rewrite Z.pow2_bits_eqb. }
  rewrite !Hp by assumption. rewrite !Z.eqb_refl.
  rewrite (proj2 (Z.eqb_neq a b)), (proj2 (Z.eqb_neq a c)),
    (proj2 (Z.eqb_neq b c)), (proj2 (Z.eqb_neq b a)),
    (proj2 (Z.eqb_neq c a)), (proj2 (Z.eqb_neq c b)) by auto.
  destruct u, v, w; auto.
Qed.

Lemma union_eqb (a b c : Z) :
  0 <= a -> 0 <= b -> 0 <= c -> a <> b -> a <> c -> b <> c ->
  forall (u v w u' v' w' : bool),
    (flag_union a b c u v w =? flag_union a b c u' v' w')
    = Bool.eqb u u' && Bool.eqb v v' && Bool.eqb w w'.
Proof.
  intros Ha Hb Hc Hab Hac Hbc u v w u' v' w'.
  destruct (union_bits a b c Ha Hb Hc Hab Hac Hbc u v w) as (H1 & H2 & H3).
  destruct (union_bits a b c Ha Hb Hc Hab Hac Hbc u' v' w')
    as (H1' & H2' & H3').
  destruct (Z.eqb_spec (flag_union a b c u v w) (flag_union a b c u' v' w'))
    as [Heq|Hne].
  - assert (Eu : u = u') by (rewrite <- H1, <- H1', Heq; reflexivity).
    assert (Ev : v = v') by (rewrite <- H2, <- H2', Heq; reflexivity).
    assert (Ew : w = w') by (rewrite <- H3, <- H3', Heq; reflexivity).
    rewrite Eu, Ev, Ew, !Bool.eqb_reflx. reflexivity.
  - symmetry. apply not_true_is_false. intros H. apply Hne.
    apply andb_true_iff in H. destruct H as [H Hw].
    apply andb_true_iff in H. destruct H as [Hu Hv].
    apply Bool.eqb_prop in Hu, Hv, Hw. now subst.
Qed.

(** The case labels of the [switch] as unions of flags. *)
Lemma case_labels (a b c : Z) :
  Z.lor (Z.lor (2 ^ b) (2 ^ c)) (2 ^ a) = flag_union a b c true true true /\
  Z.lor (2 ^ b) (2 ^ c) = flag_union a b c false true true /\
  Z.lor (2 ^ b) (2 ^ a) = flag_union a b c true true false /\
  Z.lor (2 ^ c) (2 ^ a) = flag_union a b c true false true /\
  2 ^ a = flag_union a b c true false false /\
  2 ^ b = flag_union a b c false true false /\
  2 ^ c = flag_union a b c false false true.
Proof.
  unfold flag_union. repeat split;
    rewrite ?Z.lor_0_l, ?Z.lor_0_r; try reflexivity.
  - rewrite (Z.lor_comm (Z.lor _ _) (2 ^ a)). apply Z.lor_assoc.
  - apply Z.lor_comm.
  - apply Z.lor_comm.
Qed.

(** X15: which mode [detect_inputmode] returns, read off the three flag
    bits, when the flags are distinct single bits: 31kHz input gives 576p
    or 480p, otherwise progressive input gives 288p or 240p and interlaced
    input 576i or 480i, the PAL bit choosing the first of each pair.  So the
    mode has an odd index exactly when the PAL bit is set, and its line
    count in [video_out_lines] has bit 0 set exactly when neither the
    progressive nor the 31kHz bit is set. *)
Theorem detect_inputmode_by_flags (m : machine) (a b c : Z) :
  flag_bits hw a b c ->
  let p := Z.testbit (VIDEOIF_flags m) a in
  let pal := Z.testbit (VIDEOIF_flags m) b in
  let k31 := Z.testbit (VIDEOIF_flags m) c in
  detect_inputmode hw m
  = (if pal
     then if k31 then VIDMODE_576p
          else if p then VIDMODE_288p else VIDMODE_576i
     else if k31 then VIDMODE_480p
          else if p then VIDMODE_240p else VIDMODE_480i) /\
  Nat.odd (mode_index (detect_inputmode hw m)) = pal /\
  Z.odd (video_out_lines (detect_inputmode hw m)) = negb p && negb k31.
Proof.
  intros (Ha & Hb & Hc & Hab & Hac & Hbc & HP & HPAL & HK) p pal k31.
  assert (Hmode :
    detect_inputmode hw m
    = (if pal
       then if k31 then VIDMODE_576p
            else if p then VIDMODE_288p else VIDMODE_576i
       else if k31 then VIDMODE_480p
            else if p then VIDMODE_240p else VIDMODE_480i)).
  { unfold detect_inputmode. rewrite HP, HPAL, HK. cbv zeta.
    rewrite masked_flags by assumption. fold p pal k31.
    destruct (case_labels a b c) as (E1 & E2 & E3 & E4 & E5 & E6 & E7).
    rewrite E1, E2, E3, E4.
    rewrite E6 at 1. rewrite E7 at 1. rewrite E5 at 1.
    rewrite !(union_eqb a b c Ha Hb Hc Hab Hac Hbc).
    destruct p, pal, k31; reflexivity. }
  split; [exact Hmode|]. rewrite Hmode.
  destruct p, pal, k31; repeat split; reflexivity.
Qed.

End InputMode.

(** * Properties of [settings_init] and [update_imagecontrols] *)

Section Defaults.

Variable hw : portdefs.
Variable set0 : buffer.

Lemma lor_is_u32 (x y : Z) : is_u32 x -> is_u32 y -> is_u32 (Z.lor x y).
Proof.
  intros Hx Hy. unfold is_u32.
  assert (H : Z.lor x y = u32 (Z.lor x y)).
  { apply Z.bits_inj'. intros i Hi.
    rewrite testbit_u32, Z.lor_spec by assumption.
    rewrite (testbit_is_u32 x i Hx Hi), (testbit_is_u32 y i Hy Hi).
    destruct (i <? 32); reflexivity. }
  rewrite H. unfold u32. apply Z.mod_pos_bound. lia.
Qed.

(** X16: [settings_init] is a full reset of what it initialises: running
    it a second time changes nothing, whatever the variables held before
    the first run. *)
Theorem settings_init_idempotent (m : machine) :
  settings_init hw (settings_init hw m) = settings_init hw m.
Proof.
  unfold settings_init.
  cbn [live video_settings ir_codes current_setid VIDEOIF_flags flash spi_log
       osdbg_settings].
  change (detect_inputmode hw
            (mkMachine _ _ _ (current_setid m) (VIDEOIF_flags m) _ _ _ _
                       (flash m) (spi_log m)))
    with (detect_inputmode hw m).
  destruct (video_settings (live m)) as [|v0 [|v1 [|v2 [|v3 [|v4 [|v5 t]]]]]];
    reflexivity.
Qed.

(** X17: the defaults fit the C types of the live variables.  When the
    two option constants are 32-bit values and the arrays have their
    declared sizes, the settings [settings_init] leaves satisfy
    [settings_ok] as soon as the IR codes do, so they survive a save and a
    load unchanged. *)
Theorem settings_init_ok (m : machine) :
  is_u32 (VIDEOIF_SET_LD_ENABLE hw) ->
  is_u32 (VIDEOIF_SET_SL_ALTERNATE hw) ->
  length (video_settings (live m)) = VIDMODE_COUNT ->
  length (ir_codes (live m)) = NUM_IRCODES ->
  Forall is_u32 (ir_codes (live m)) ->
  settings_ok (live (settings_init hw m)) /\
  forall m' s',
    live (copy_to_main_vars hw (make_record hw (live (settings_init hw m))) m')
    = live (settings_init hw m) /\
    (store_inv hw m ->
     live (settings_load hw set0
             (set_live (settings_save hw (settings_init hw m)) s'))
     = live (settings_init hw m)).
Proof.
  intros Hld Hsl Hlen Hirl Hir.
  assert (Hok : settings_ok (live (settings_init hw m))).
  { unfold settings_init, settings_ok.
    cbn [live video_settings osdbg_settings mode_switch_delay audio_volume
         ir_codes picture_brightness picture_contrast picture_saturation].
    assert (H128 : is_u32 128) by (unfold is_u32; lia).
    pose proof (lor_is_u32 _ _ H128 Hld) as H1.
    pose proof (lor_is_u32 _ _ H1 Hsl) as H2.
    split; [now rewrite !length_upd|].
    split; [|unfold is_u32, is_byte, is_s8; repeat split; auto; lia].
    destruct (video_settings (live m)) as [|v0 [|v1 [|v2 [|v3 [|v4 [|v5 t]]]]]];
      try discriminate Hlen.
    destruct t; [|discriminate Hlen].
    cbn [upd mode_index].
    repeat (apply Forall_cons; [assumption|]). apply Forall_nil. }
  split; [exact Hok|]. intros m' s'. split.
  - now apply decode_v5.
  - intros [Hc Herased].
    now rewrite (save_then_load hw set0 (settings_init hw m) s').
Qed.

End Defaults.

Section ImageControls.

Variable hw : portdefs.
Variable set0 : buffer.

(** X18: for picture controls in the [int8_t] range no wrap-around occurs
    in [update_imagecontrols]: the contrast field is [contrast + 128], the
    saturation field is [(saturation + 128) * (contrast + 128) / 128], at
    most 508, which is [saturation + 128] at neutral contrast and 0 at the
    lowest contrast, and the register receives the three fields shifted to
    their positions. *)
Theorem update_imagecontrols_fields (m : machine) :
  is_s8 (picture_contrast (live m)) ->
  is_s8 (picture_saturation (live m)) ->
  let s := live m in
  imgctl_contrast s = picture_contrast s + 128 /\
  imgctl_saturation s
  = (picture_saturation s + 128) * (picture_contrast s + 128) / 128 /\
  0 <= imgctl_saturation s <= 508 /\
  (picture_contrast s = 0 -> imgctl_saturation s = picture_saturation s + 128) /\
  (picture_contrast s = -128 -> imgctl_saturation s = 0) /\
  VIDEOIF_image_controls (update_imagecontrols hw m)
  = u32 (Z.lor
           (Z.lor (Z.shiftl (picture_contrast s + 128)
                            (VIDEOIF_IMGCTL_CONTRAST_SHIFT hw))
                  (Z.shiftl (u8 (picture_brightness s))
                            (VIDEOIF_IMGCTL_BRIGHTNESS_SHIFT hw)))
           (Z.shiftl ((picture_saturation s + 128)
                      * (picture_contrast s + 128) / 128)
                     (VIDEOIF_IMGCTL_SATURATION_SHIFT hw))) /\
  live (update_imagecontrols hw m) = live m.
Proof.
  intros Hc Hs s. subst s. unfold is_s8 in Hc, Hs.
  set (pc := picture_contrast (live m)) in *.
  set (ps := picture_saturation (live m)) in *.
  assert (H1 : imgctl_contrast (live m) = pc + 128).
  { unfold imgctl_contrast, u8. fold pc. apply Z.mod_small. lia. }
  assert (H2 : imgctl_saturation (live m) = (ps + 128) * (pc + 128) / 128).
  { unfold imgctl_saturation. rewrite H1. fold ps.
    rewrite Z.quot_div_nonneg by nia.
    unfold u16. apply Z.mod_small. split.
    - apply Z.div_pos; nia.
    - apply Z.div_lt_upper_bound; nia. }
  assert (H3 : 0 <= (ps + 128) * (pc + 128) / 128 <= 508).
  { split.
    - apply Z.div_pos; nia.
    - apply Z.lt_succ_r. apply Z.div_lt_upper_bound; nia. }
  split; [exact H1|]. split; [exact H2|]. split; [now rewrite H2|].
  split; [|split; [|split]].
  - intros H0. rewrite H2, H0. change (0 + 128) with (1 * 128).
    rewrite Z.mul_assoc, Z.div_mul by lia. lia.
  - intros H0. rewrite H2, H0. simpl. now rewrite Z.mul_0_r.
  - rewrite <- H2, <- H1. reflexivity.
  - reflexivity.
Qed.

Lemma update_imagecontrols_live_only (m1 m2 : machine) :
  picture_brightness (live m1) = picture_brightness (live m2) ->
  picture_contrast (live m1) = picture_contrast (live m2) ->
  picture_saturation (live m1) = picture_saturation (live m2) ->
  VIDEOIF_image_controls (update_imagecontrols hw m1)
  = VIDEOIF_image_controls (update_imagecontrols hw m2).
Proof.
  intros Hb Hc Hs. unfold update_imagecontrols.
  cbn [VIDEOIF_image_controls set_image_controls]. now rewrite Hb, Hc, Hs.
Qed.

Lemma copy_keeps_sync (set : buffer) (m : machine) :
  imgctl_in_sync hw m -> imgctl_in_sync hw (copy_to_main_vars hw set m).
Proof.
  unfold imgctl_in_sync, copy_to_main_vars. intros Hsync.
  destruct (5 <=? version set).
  - apply update_imagecontrols_live_only; reflexivity.
  - cbn [VIDEOIF_image_controls set_live]. rewrite Hsync.
    apply update_imagecontrols_live_only; reflexivity.
Qed.

Lemma load_keeps_sync (m : machine) :
  imgctl_in_sync hw m -> imgctl_in_sync hw (settings_load hw set0 m).
Proof.
  intros Hsync. unfold settings_load.
  destruct (scan hw (flash m) 256 0 set0) as [[valid i] set].
  destruct valid; [apply copy_keeps_sync|]; exact Hsync.
Qed.

(** X19: [settings_load] and [settings_save] keep the image-control
    register in step with the picture controls.  If the register holds what
    [update_imagecontrols] computes from the live picture controls, it
    still does after a load, in each of its three outcomes (no record, a V4
    record, a V5 record), and after a save. *)
Theorem load_and_save_keep_imgctl_in_sync (m : machine) :
  imgctl_in_sync hw m ->
  imgctl_in_sync hw (settings_load hw set0 m) /\
  imgctl_in_sync hw (settings_save hw m) /\
  imgctl_in_sync hw (update_imagecontrols hw m).
Proof.
  intros Hsync. split; [now apply load_keeps_sync|]. split.
  - unfold imgctl_in_sync, settings_save.
    destruct (current_setid m =? 0); exact Hsync.
  - unfold imgctl_in_sync. apply update_imagecontrols_live_only; reflexivity.
Qed.

(** X20: after the boot sequence the register matches the picture
    controls.  When the contrast and saturation fields sit at bits 0 and 16
    of the register, in either order, the word 0x00800080 that
    [settings_init] writes is the one [update_imagecontrols] computes from
    the default picture controls, and it stays in step through the
    [settings_load] that follows, on any flash contents. *)
Theorem boot_leaves_imgctl_in_sync (m : machine) :
  (VIDEOIF_IMGCTL_CONTRAST_SHIFT hw = 0
   /\ VIDEOIF_IMGCTL_SATURATION_SHIFT hw = 16)
  \/ (VIDEOIF_IMGCTL_CONTRAST_SHIFT hw = 16
      /\ VIDEOIF_IMGCTL_SATURATION_SHIFT hw = 0) ->
  imgctl_in_sync hw (settings_init hw m) /\
  imgctl_in_sync hw (settings_load hw set0 (settings_init hw m)).
Proof.
  intros Hlayout.
  assert (Hinit : imgctl_in_sync hw (settings_init hw m)).
  { unfold imgctl_in_sync, update_imagecontrols, settings_init.
    cbn [VIDEOIF_image_controls set_image_controls live picture_contrast
         picture_saturation picture_brightness].
    change (u8 (0 + 128)) with 128. change (u8 0) with 0.
    change (u16 (Z.quot ((0 + 128) * 128) 128)) with 128.
    rewrite Z.shiftl_0_l, Z.lor_0_r.
    destruct Hlayout as [[-> ->]|[-> ->]]; reflexivity. }
  split; [exact Hinit|]. now apply load_keeps_sync.
Qed.

End ImageControls.

(** * Concrete instances of the further properties *)

Lemma store_inv_fresh : store_inv example_target machine_fresh.
Proof.
  split; [simpl; lia|]. intros j Hj. apply slot_erased_fill.
Qed.

Lemma settings_load_reads_records_only_witness :
  flash machine_tail_written (SETTINGS_OFFSET example_target + 100) = 0 /\
  flash machine_erased (SETTINGS_OFFSET example_target + 100) = 255 /\
  current_setid (settings_load example_target example_stack
                   machine_tail_written)
  = current_setid (settings_load example_target example_stack machine_erased).
Proof.
  split; [reflexivity|]. split; [reflexivity|].
  destruct (settings_load_reads_records_only example_target example_stack
              machine_tail_written machine_erased) as [_ H].
  - reflexivity.
  - intros i k Hi Hk. unfold sizeof_storedsettings_t in Hk.
    cbn [flash machine_tail_written machine_erased example_machine].
    unfold flash_tail_written. apply write_page_outside.
    cbn [length]. destruct (Z.eq_dec i 0); [left|right]; lia.
  - exact H.
Defined.


Lemma settings_save_keeps_store_witness :
  store_inv example_target machine_fresh /\
  store_inv example_target (settings_save example_target machine_fresh) /\
  current_setid (settings_save example_target machine_fresh) < 256.
Proof.
  split; [exact store_inv_fresh|].
  destruct (settings_save_keeps_store example_target machine_fresh
              store_inv_fresh) as (H1 & H2 & _).
  split; [exact H1|exact H2].
Defined.

Lemma reboot_recovers_cursor_witness :
  store_inv example_target machine_fresh /\
  current_setid
    (settings_load example_target example_stack
       (set_live (settings_save example_target machine_fresh)
                 example_settings))
  = current_setid (settings_save example_target machine_fresh).
Proof.
  split; [exact store_inv_fresh|].
  destruct (reboot_recovers_cursor example_target example_stack machine_fresh
              example_settings store_inv_fresh) as [H _].
  exact H.
Defined.

Lemma last_save_wins_witness :
  store_inv example_target machine_fresh /\
  settings_ok example_settings /\
  live (settings_load example_target example_stack
          (set_live
             (run_saves example_target
                (repeat (live machine_fresh) 300 ++ [example_settings])
                machine_fresh)
             (live machine_fresh)))
  = example_settings.
Proof.
  split; [exact store_inv_fresh|]. split; [exact example_settings_ok|].
  exact (last_save_wins example_target example_stack machine_fresh
           (repeat (live machine_fresh) 300) example_settings
           (live machine_fresh) store_inv_fresh example_settings_ok).
Defined.

Lemma erase_count_after_saves_witness :
  current_setid machine_cursor7 = Z.of_nat 7 /\
  (7 <= 256)%nat /\
  erase_count
    (run_saves example_target (repeat example_settings 600) machine_cursor7)
  = 3%nat.
Proof.
  split; [reflexivity|]. split; [lia|].
  destruct (erase_count_after_saves example_target machine_cursor7
              (repeat example_settings 600) 7 eq_refl) as [H _]; [lia|].
  rewrite H. rewrite repeat_length. reflexivity.
Defined.

Lemma programmed_slot_never_empty_witness :
  slot_erased example_target erased_flash 9 /\
  (2 <= 2)%nat /\
  version
    (read_slot example_target
       (spiflash_write_page erased_flash
          (SETTINGS_OFFSET example_target + 256 * 9)
          (firstn 2 (make_record example_target example_settings))) 9) = 5.
Proof.
  split; [apply slot_erased_fill|]. split; [lia|].
  destruct (programmed_slot_never_empty example_target erased_flash 9
              example_settings 2 (slot_erased_fill example_target 9)
              (le_n 2)) as [H _].
  exact H.
Defined.

Lemma single_byte_change_detected_witness :
  record_valid (make_record example_target example_settings) = true /\
  peek (make_record example_target example_settings) 3 = 200 /\
  record_valid (upd (make_record example_target example_settings) 3 17)
  = false.
Proof.
  split; [vm_compute; reflexivity|]. split; [vm_compute; reflexivity|].
  apply single_byte_change_detected.
  - exact (make_record_ok example_target example_settings).
  - vm_compute; reflexivity.
  - vm_compute; lia.
  - unfold OFF_version. lia.
  - unfold is_byte. lia.
  - vm_compute. discriminate.
Defined.

Lemma byte_transposition_undetected_witness :
  record_valid (make_record example_target example_settings) = true /\
  swap_bytes (make_record example_target example_settings) 3 7
  <> make_record example_target example_settings /\
  record_valid (swap_bytes (make_record example_target example_settings) 3 7)
  = true.
Proof.
  split; [vm_compute; reflexivity|]. split.
  - intros H. apply (f_equal (fun l => nth 3 l 0)) in H. vm_compute in H.
    discriminate H.
  - apply byte_transposition_undetected.
    + exact (make_record_ok example_target example_settings).
    + vm_compute; reflexivity.
    + vm_compute; lia.
    + vm_compute; lia.
Defined.

Lemma set_all_modes_disable_witness :
  is_u32 (video_settings_global machine_erased) /\
  Z.land (video_settings_global (set_all_modes 256 false machine_erased)) 256
  = 0.
Proof.
  assert (H : is_u32 (video_settings_global machine_erased))
    by (unfold is_u32; simpl; lia).
  split; [exact H|].
  destruct (set_all_modes_disable 256 machine_erased H) as (H1 & _).
  exact H1.
Defined.

Lemma set_all_modes_last_call_wins_witness :
  is_u32 (video_settings_global machine_erased) /\
  set_all_modes 256 false (set_all_modes 256 true machine_erased)
  = set_all_modes 256 false machine_erased.
Proof.
  assert (H : is_u32 (video_settings_global machine_erased))
    by (unfold is_u32; simpl; lia).
  split; [exact H|].
  exact (set_all_modes_last_call_wins 256 true false machine_erased H).
Defined.

Lemma example_flag_bits : flag_bits example_target 0 1 2.
Proof. unfold flag_bits. simpl. repeat split; lia. Qed.

Lemma detect_inputmode_by_flags_witness :
  flag_bits example_target 0 1 2 /\
  detect_inputmode example_target (with_flags machine_erased 3) = VIDMODE_288p.
Proof.
  split; [exact example_flag_bits|].
  destruct (detect_inputmode_by_flags example_target
              (with_flags machine_erased 3) 0 1 2 example_flag_bits)
    as (H & _).
  exact H.
Defined.

Lemma settings_init_ok_witness :
  is_u32 (VIDEOIF_SET_LD_ENABLE example_target) /\
  is_u32 (VIDEOIF_SET_SL_ALTERNATE example_target) /\
  settings_ok (live (settings_init example_target machine_erased)).
Proof.
  assert (H1 : is_u32 (VIDEOIF_SET_LD_ENABLE example_target))
    by (unfold is_u32; simpl; lia).
  assert (H2 : is_u32 (VIDEOIF_SET_SL_ALTERNATE example_target))
    by (unfold is_u32; simpl; lia).
  split; [exact H1|]. split; [exact H2|].
  destruct (settings_init_ok example_target example_stack machine_erased
              H1 H2) as [H _].
  - reflexivity.
  - reflexivity.
  - simpl. repeat (apply Forall_cons; [unfold is_u32; lia|]). apply Forall_nil.
  - exact H.
Defined.

Lemma update_imagecontrols_fields_witness :
  is_s8 (picture_contrast (live machine_erased)) /\
  is_s8 (picture_saturation (live machine_erased)) /\
  imgctl_saturation (live machine_erased) = 143.
Proof.
  assert (H1 : is_s8 (picture_contrast (live machine_erased)))
    by (unfold is_s8; simpl; lia).
  assert (H2 : is_s8 (picture_saturation (live machine_erased)))
    by (unfold is_s8; simpl; lia).
  split; [exact H1|]. split; [exact H2|].
  destruct (update_imagecontrols_fields example_target machine_erased H1 H2)
    as (_ & H & _).
  rewrite H. reflexivity.
Defined.

Lemma load_and_save_keep_imgctl_in_sync_witness :
  imgctl_in_sync example_target machine_in_sync /\
  imgctl_in_sync example_target
    (settings_load example_target example_stack machine_in_sync).
Proof.
  assert (H : imgctl_in_sync example_target machine_in_sync)
    by reflexivity.
  split; [exact H|].
  destruct (load_and_save_keep_imgctl_in_sync example_target example_stack
              machine_in_sync H) as [H1 _].
  exact H1.
Defined.

Lemma boot_leaves_imgctl_in_sync_witness :
  (VIDEOIF_IMGCTL_CONTRAST_SHIFT example_target = 0
   /\ VIDEOIF_IMGCTL_SATURATION_SHIFT example_target = 16) /\
  imgctl_in_sync example_target
    (settings_load example_target example_stack
       (settings_init example_target machine_legacy0)).
Proof.
  assert (H : VIDEOIF_IMGCTL_CONTRAST_SHIFT example_target = 0
              /\ VIDEOIF_IMGCTL_SATURATION_SHIFT example_target = 16)
    by (split; reflexivity).
  split; [exact H|].
  destruct (boot_leaves_imgctl_in_sync example_target example_stack
              machine_legacy0 (or_introl H)) as [_ H1].
  exact H1.
Defined.

(** * Properties of [print_resolution] *)

Section ResolutionProperties.

Variable hw : portdefs.






End ResolutionProperties.

